(** * metskin-asst: the two CSV tools of [knowledge/]

    - [knowledge/validate_products_csv.py], the Row Validator;
    - [knowledge/add_missing_columns.py], the Column Enricher.

    Both are straight-line Python scripts.  They are embedded here as
    functions from the command line and the file system to what the
    process leaves behind: the lines on its two streams, its exit status
    and, for the enricher, the rows handed to the CSV writer.

    The CSV text itself is read and written by Python's [csv] module.  A
    file is therefore taken at the level where the scripts see it: the
    list of rows that [csv.reader] yields (a blank line is the empty row),
    and the list of rows handed to [csv.writer]. *)

From Stdlib Require Import ZArith NArith List String Ascii Lia.
From stdpp Require Import base option list gmap strings pretty.

(** ** Python values the scripts touch *)

Module Py.

(** A Python [str] is a sequence of Unicode code points. *)
Abbreviation char := N.
Abbreviation str := (list char).

(** String literals of the source. *)
Definition lit (s : string) : str :=
  N_of_ascii <$> String.list_ascii_of_string s.
Arguments lit s%_string.

(** [str.isspace] on one code point: the white space removed by
    [str.strip()] when it is called without an argument. *)
Definition isspace (c : char) : bool :=
  ((9 <=? c) && (c <=? 13) || (28 <=? c) && (c <=? 32)
   || (c =? 133) || (c =? 160) || (c =? 5760)
   || (8192 <=? c) && (c <=? 8202) || (c =? 8232) || (c =? 8233)
   || (c =? 8239) || (c =? 8287) || (c =? 12288))%N.

Fixpoint lstrip (s : str) : str :=
  match s with
  | c :: s' => if isspace c then lstrip s' else s
  | [] => []
  end.

Definition rstrip (s : str) : str := rev (lstrip (rev s)).

(** [s.strip()] *)
Definition strip (s : str) : str := rstrip (lstrip s).

(** [str.lower] on one code point.  The ASCII capitals go to their small
    letters; U+212A (Kelvin sign) and U+0130 are the two code points
    outside ASCII whose lower case contains an ASCII letter.  Python also
    maps the other cased letters outside ASCII, each to code points outside
    ASCII again; they are left in place here, which changes no comparison
    with an ASCII literal and no test for emptiness. *)
Definition lower_char (c : char) : list char :=
  if ((65 <=? c) && (c <=? 90))%N then [(c + 32)%N]
  else if (c =? 8490)%N then [107%N]
  else if (c =? 304)%N then [105%N; 775%N]
  else [c].

(** [s.lower()] *)
Definition lower (s : str) : str := s ≫= lower_char.

(** [sep.join(l)] *)
Fixpoint join (sep : str) (l : list str) : str :=
  match l with
  | [] => []
  | [s] => s
  | s :: l' => s ++ sep ++ join sep l'
  end.

(** A value that is a [str] or [None]. *)
Abbreviation value := (option str).

(** [str(v)], also what an f-string does with [{v}]. *)
Definition str_of (v : value) : str :=
  match v with
  | Some s => s
  | None => lit "None"
  end.

(** [str(n)] of a non-negative [int]. *)
Definition str_of_nat (n : nat) : str := lit (pretty n).

(** [enumerate(l, start)] *)
Definition enumerate {A} (l : list A) (start : nat) : list (nat * A) :=
  zip (seq start (length l)) l.

(** The exceptions that can escape the scripts. *)
Inductive exn := TypeError | ValueError.

(** What reaches the error stream: the text of [raise SystemExit(msg)],
    or the traceback of an uncaught exception. *)
Inductive err_line :=
| Msg (m : str)
| Traceback (e : exn).

(** A finished process: the lines printed on the standard output stream,
    what reached the error stream, and the exit status.  [sys.exit(n)]
    ends with status [n] and leaves nothing on the error stream; an
    uncaught exception and [raise SystemExit(msg)] both end with
    status 1. *)
Record process := Process {
  stdout : list str;
  stderr : list err_line;
  status : Z
}.

(** The files the process can see: [None] where [os.path.exists] is
    false, the rows of the file otherwise. *)
Definition files := str → option (list (list str)).

End Py.

Export Py.

(** ** The [csv] module, as the scripts use it *)

Module Csv.

(** A row of [csv.DictReader]: the cells under the column names, a cell
    that the line lacks being [None] ([restval]); the cells beyond the
    header, if any, are under the key [None] ([restkey]) as a list. *)
Record row_dict := Row {
  fields : gmap str value;
  rest : option (list str)
}.

(** [row.get(k, default)] for a column name [k]. *)
Definition get (d : row_dict) (k : str) (default : value) : value :=
  match fields d !! k with
  | Some v => v
  | None => default
  end.

(** [DictReader.fieldnames]: the first row of the file, [None] when the
    file has no row at all. *)
Definition fieldnames (f : list (list str)) : option (list str) := head f.

(** [dict(zip(fieldnames, row))]: a later cell replaces an earlier one
    under the same name. *)
Definition dict_zip (fns row : list str) : gmap str value :=
  foldl (λ d kv, <[kv.1 := Some kv.2]> d) ∅ (zip fns row).

(** [for key in fieldnames[lr:]: d[key] = restval] *)
Definition fill_restval (keys : list str) (d : gmap str value) : gmap str value :=
  foldl (λ d k, <[k := None]> d) d keys.

(** The body of [DictReader.__next__] after a non-blank row was read. *)
Definition make_row (fns row : list str) : row_dict :=
  let d := dict_zip fns row in
  let lf := length fns in
  let lr := length row in
  if lf <? lr then Row d (Some (drop lf row))
  else if lr <? lf then Row (fill_restval (drop lr fns) d) None
  else Row d None.

Definition blank (row : list str) : bool :=
  match row with [] => true | _ => false end.

(** The rows that follow the header, blank ones skipped
    ([while row == []: row = next(self.reader)]). *)
Definition data_rows (f : list (list str)) : list (list str) :=
  filter (λ row, blank row = false) (tail f).

(** Iterating a [DictReader]. *)
Definition records (f : list (list str)) : list row_dict :=
  match f with
  | [] => []
  | fns :: _ => make_row fns <$> data_rows f
  end.

End Csv.

Export Csv.

(** ** [knowledge/validate_products_csv.py] *)

Module Validate.

Definition PATH (argv : list str) : str :=
  if 1 <? length argv then nth 1 argv [] else lit "products.csv".

Definition REQ : list str :=
  [lit "sku"; lit "name"; lit "aliases"; lit "category"; lit "skin_types";
   lit "key_ingredients"; lit "claims"; lit "fragrance_free"; lit "oil_based";
   lit "condom_compatible"; lit "size_ml"; lit "price"; lit "usage";
   lit "contraindications"; lit "notes"].

(** [[c for c in REQ if c not in r.fieldnames]] *)
Definition missing_cols (fns : list str) : list str :=
  filter (λ c, c ∉ fns) REQ.

Definition flags : list str :=
  [lit "fragrance_free"; lit "oil_based"; lit "condom_compatible"].

(** [str(row.get(b,"")).strip().lower()] *)
Definition norm (row : row_dict) (b : str) : str :=
  lower (strip (str_of (get row b (Some [])))).

(** [v in {"true","false"}] *)
Definition is_flag (v : str) : bool :=
  bool_decide (v = lit "true") || bool_decide (v = lit "false").

(** [f"{b}='{row.get(b)}' not true/false"] *)
Definition flag_msg (row : row_dict) (b : str) : str :=
  b ++ lit "='" ++ str_of (get row b None) ++ lit "' not true/false".

Definition cross_msg : str :=
  lit "oil_based=true must imply condom_compatible=false".

(** The body of the row loop up to [if errs:], giving [errs]. *)
Definition row_errs (row : row_dict) : list str :=
  let errs := [] in
  let errs :=
    foldl (λ errs b,
             let v := norm row b in
             if is_flag v then errs else errs ++ [flag_msg row b])
          errs flags in
  let errs :=
    if bool_decide (norm row (lit "oil_based") = lit "true")
       && negb (bool_decide (norm row (lit "condom_compatible") = lit "false"))
    then errs ++ [cross_msg] else errs in
  let errs :=
    match strip (str_of (get row (lit "sku") (Some []))) with
    | [] => errs ++ [lit "sku empty"]
    | _ => errs
    end in
  let errs :=
    match strip (str_of (get row (lit "name") (Some []))) with
    | [] => errs ++ [lit "name empty"]
    | _ => errs
    end in
  errs.

(** [f"Row {i} ({row.get('sku','?')}): " + "; ".join(errs)] *)
Definition report (i : nat) (row : row_dict) (errs : list str) : str :=
  (lit "Row " ++ str_of_nat i ++ lit " ("
   ++ str_of (get row (lit "sku") (Some (lit "?"))) ++ lit "): ")
  ++ join (lit "; ") errs.

(** One turn of the row loop on the state [(bad, printed lines)]. *)
Definition check_row (st : nat * list str) (ir : nat * row_dict) : nat * list str :=
  match row_errs ir.2 with
  | [] => st
  | errs => (S st.1, st.2 ++ [report ir.1 ir.2 errs])
  end.

(** ["OK" if bad == 0 else f"{bad} row(s) need fixes"] *)
Definition summary (bad : nat) : str :=
  if bad =? 0 then lit "OK" else str_of_nat bad ++ lit " row(s) need fixes".

(** The script. *)
Definition validate (argv : list str) (fs : files) : process :=
  let bad := 0 in
  match fs (PATH argv) with
  | None => Process [lit "File not found: " ++ PATH argv] [] 1
  | Some f =>
    match fieldnames f with
    | None => (* [c not in None] *) Process [] [Traceback TypeError] 1
    | Some fns =>
      match missing_cols fns with
      | (_ :: _) as missing =>
        Process [lit "Missing columns:" ++ lit " " ++ join (lit ", ") missing] [] 1
      | [] =>
        let st := foldl check_row (bad, []) (enumerate (records f) 2) in
        Process (st.2 ++ [summary st.1]) [] 0
      end
    end
  end.

End Validate.

(** ** [knowledge/add_missing_columns.py] *)

Module Enrich.

Definition in_path (argv : list str) : str :=
  if 1 <? length argv then nth 1 argv [] else lit "products.csv".

Definition out_path (argv : list str) : str :=
  if 2 <? length argv then nth 2 argv [] else lit "products_enriched.csv".

Definition need : list str :=
  [lit "aliases"; lit "skin_types"; lit "oil_based"; lit "condom_compatible";
   lit "notes"].

(** [{k:"" for k in need}] *)
Definition defaults : gmap str str :=
  foldl (λ d k, <[k := []]> d) ∅ need.

(** [for k in need: if k not in fieldnames: fieldnames.append(k)] *)
Definition add_needed (fieldnames : list str) : list str :=
  foldl (λ fieldnames k,
           if bool_decide (k ∈ fieldnames) then fieldnames
           else fieldnames ++ [k])
        fieldnames need.

(** [row.setdefault(k, v)] *)
Definition setdefault (row : row_dict) (k : str) (v : str) : row_dict :=
  match fields row !! k with
  | Some _ => row
  | None => Row (<[k := Some v]> (fields row)) (rest row)
  end.

(** [for k in need: row.setdefault(k, defaults[k])] *)
Definition fill_defaults (row : row_dict) : row_dict :=
  foldl (λ row k, setdefault row k (defaults !!! k)) row need.

(** [rowdict.keys() - self.fieldnames] of [DictWriter._dict_to_list]; the
    key [None] of the surplus cells is never a field name. *)
Definition wrong_fields (fieldnames : list str) (row : row_dict) : list (option str) :=
  (Some <$> filter (λ k, k ∉ fieldnames) (map_to_list (fields row)).*1)
  ++ (match rest row with Some _ => [None] | None => [] end).

(** [DictWriter._dict_to_list], with [extrasaction="raise"] and
    [restval=""], the defaults. *)
Definition dict_to_list (fieldnames : list str) (row : row_dict) : exn + list value :=
  match wrong_fields fieldnames row with
  | [] => inr ((λ key, get row key (Some [])) <$> fieldnames)
  | _ => inl ValueError
  end.

(** The writer puts [None] out as the empty string. *)
Definition cell (v : value) : str := default [] v.

(** [w.writerows(rows)]: the rows reach the file one by one, up to the
    first row that raises. *)
Fixpoint writerows (fieldnames : list str) (rows : list row_dict)
    (written : list (list str)) : list (list str) * option exn :=
  match rows with
  | [] => (written, None)
  | row :: rows' =>
    match dict_to_list fieldnames row with
    | inl e => (written, Some e)
    | inr cells => writerows fieldnames rows' (written ++ [cell <$> cells])
    end
  end.

(** The script: the finished process, and the rows written to
    [out_path] when the script came to open it. *)
Definition enrich (argv : list str) (fs : files) : process * option (list (list str)) :=
  match fs (in_path argv) with
  | None => (Process [] [Msg (lit "File not found: " ++ in_path argv)] 1, None)
  | Some f =>
    let fieldnames := add_needed (default [] (Csv.fieldnames f)) in
    let rows := fill_defaults <$> records f in
    (* [w.writeheader()] *)
    let written := [fieldnames] in
    match writerows fieldnames rows written with
    | (written, Some e) => (Process [] [Traceback e] 1, Some written)
    | (written, None) =>
      (Process [lit "Wrote " ++ out_path argv ++ lit " with columns: "
                ++ join (lit ", ") fieldnames] [] 0,
       Some written)
    end
  end.

End Enrich.

Import Validate Enrich.

(** ** Sample inputs *)

Module Samples.

(** A row that breaks no rule, in the order of [REQ]. *)
Definition good_cells : list str :=
  [lit "SKU1"; lit "Foo"; lit "a"; lit "c"; lit "dry"; lit "k"; lit "cl";
   lit "true"; lit "false"; lit "true"; lit "50"; lit "9.5"; lit "u";
   lit "none"; lit "n"].

(** The same row with an empty [sku]. *)
Definition empty_sku_cells : list str := [] :: tail good_cells.

Definition empty_sku_file : list (list str) := [REQ; empty_sku_cells].

(** The command lines without arguments. *)
Definition validator_argv : list str := [lit "validate_products_csv.py"].
Definition enricher_argv : list str := [lit "add_missing_columns.py"].

(** One file for every path. *)
Definition only (f : list (list str)) : files := λ _, Some f.

(** No file at all. *)
Definition nothing : files := λ _, None.

(** The header of [REQ] with [sku] moved to the end. *)
Definition sku_last : list str := tail REQ ++ [lit "sku"].

End Samples.

Import Samples.

(** * Properties *)

(** ** The Python values *)

Example strip_ex : strip (lit "  TRUE  ") = lit "TRUE".
Proof. reflexivity. Qed.

Example lower_ex : lower (strip (lit " True ")) = lit "true".
Proof. reflexivity. Qed.

Example str_of_None_not_blank : strip (str_of None) = lit "None".
Proof. reflexivity. Qed.

Example enumerate_ex : enumerate [lit "a"; lit "b"] 2 = [(2, lit "a"); (3, lit "b")].
Proof. reflexivity. Qed.

Lemma enumerate_cons {A} (x : A) l i :
  enumerate (x :: l) i = (i, x) :: enumerate l (S i).
Proof. reflexivity. Qed.

(** ** The reader *)

Example make_row_short_ex :
  get (make_row [lit "a"; lit "b"] [lit "1"]) (lit "b") (Some []) = None.
Proof. vm_compute. reflexivity. Qed.

Example make_row_dup_ex :
  get (make_row [lit "a"; lit "a"] [lit "1"; lit "2"]) (lit "a") None
  = Some (lit "2").
Proof. vm_compute. reflexivity. Qed.

Example make_row_long_ex :
  rest (make_row [lit "a"] [lit "1"; lit "2"]) = Some [lit "2"].
Proof. reflexivity. Qed.

Section reader.
Implicit Types (fns row keys : list str) (d : gmap str value) (k : str).

Lemma fst_zip_take fns row : (zip fns row).*1 = take (length row) fns.
Proof.
  revert row; induction fns as [|c fns IH]; intros [|x row]; simpl; try done.
  by rewrite IH.
Qed.

Lemma zip_insert_is_Some (kvs : list (str * str)) d k :
  is_Some (foldl (λ d kv, <[kv.1 := Some kv.2]> d) d kvs !! k)
  ↔ is_Some (d !! k) ∨ k ∈ kvs.*1.
Proof.
  revert d; induction kvs as [|[k' v] kvs IH]; intros d; simpl.
  - rewrite elem_of_nil. tauto.
  - rewrite IH, lookup_insert_is_Some, elem_of_cons.
    destruct (decide (k' = k)); intuition congruence.
Qed.

Lemma zip_insert_notin (kvs : list (str * str)) d k :
  k ∉ kvs.*1 → foldl (λ d kv, <[kv.1 := Some kv.2]> d) d kvs !! k = d !! k.
Proof.
  revert d; induction kvs as [|[k' v] kvs IH]; intros d Hk; simpl; [done|].
  simpl in Hk. apply not_elem_of_cons in Hk as [Hne Hk].
  rewrite IH by done. by rewrite lookup_insert_ne.
Qed.

Lemma zip_insert_fun (g : str → str) (kvs : list (str * str)) d k :
  (∀ kv, kv ∈ kvs → kv.2 = g kv.1) → k ∈ kvs.*1 →
  foldl (λ d kv, <[kv.1 := Some kv.2]> d) d kvs !! k = Some (Some (g k)).
Proof.
  revert d; induction kvs as [|[k' v] kvs IH]; intros d Hg Hk; simpl.
  - by apply elem_of_nil in Hk.
  - destruct (decide (k ∈ kvs.*1)) as [Hin|Hout].
    + apply IH; [|done]. intros kv ?. apply Hg. by right.
    + rewrite zip_insert_notin by done.
      simpl in Hk. apply elem_of_cons in Hk as [->|?]; [|done].
      rewrite lookup_insert_eq. specialize (Hg (k', v)). simpl in Hg.
      rewrite Hg; [done|by left].
Qed.

Lemma fill_restval_lookup keys d k :
  fill_restval keys d !! k = if decide (k ∈ keys) then Some None else d !! k.
Proof.
  unfold fill_restval. revert d; induction keys as [|k' keys IH]; intros d.
  - destruct (decide (k ∈ [])) as [Hin|]; [by apply elem_of_nil in Hin|done].
  - cbn [foldl]. rewrite IH.
    destruct (decide (k ∈ keys)) as [Hin|Hout];
      destruct (decide (k ∈ k' :: keys)) as [Hin'|Hout']; try done.
    + exfalso. apply Hout'. by right.
    + apply elem_of_cons in Hin' as [->|?]; [|done]. apply lookup_insert_eq.
    + apply lookup_insert_ne. intros ->. apply Hout'. by left.
Qed.

Lemma dict_zip_is_Some fns row k :
  is_Some (dict_zip fns row !! k) ↔ k ∈ take (length row) fns.
Proof.
  unfold dict_zip. rewrite zip_insert_is_Some, lookup_empty, fst_zip_take.
  split; [intros [[? [=]]|?]; done | by right].
Qed.

(** A long row: all the columns are filled, the surplus is kept apart. *)
Lemma make_row_long fns row :
  length fns < length row →
  make_row fns row = Row (dict_zip fns row) (Some (drop (length fns) row)).
Proof.
  intros H. unfold make_row. by rewrite (proj2 (Nat.ltb_lt _ _) H).
Qed.

Lemma make_row_short fns row :
  length row < length fns →
  make_row fns row
  = Row (fill_restval (drop (length row) fns) (dict_zip fns row)) None.
Proof.
  intros H. unfold make_row.
  rewrite (proj2 (Nat.ltb_ge _ _)) by lia. by rewrite (proj2 (Nat.ltb_lt _ _) H).
Qed.

Lemma make_row_exact fns row :
  length row = length fns → make_row fns row = Row (dict_zip fns row) None.
Proof.
  intros H. unfold make_row. by rewrite !(proj2 (Nat.ltb_ge _ _)) by lia.
Qed.

(** Every column of the header is a key of the record. *)
Lemma make_row_present fns row k :
  k ∈ fns → is_Some (fields (make_row fns row) !! k).
Proof.
  intros Hk.
  destruct (Nat.lt_total (length fns) (length row)) as [H|[H|H]].
  - rewrite make_row_long by done. simpl. apply dict_zip_is_Some.
    by rewrite take_ge by lia.
  - rewrite make_row_exact by done. simpl. apply dict_zip_is_Some.
    by rewrite take_ge by lia.
  - rewrite make_row_short by done. simpl. rewrite fill_restval_lookup.
    case_decide as Hd; [by eexists|].
    apply dict_zip_is_Some.
    rewrite <- (take_drop (length row) fns) in Hk.
    apply elem_of_app in Hk as [?|?]; done.
Qed.

(** And the record has no other named key. *)
Lemma make_row_keys fns row k :
  is_Some (fields (make_row fns row) !! k) → k ∈ fns.
Proof.
  assert (Hz : is_Some (dict_zip fns row !! k) → k ∈ fns).
  { rewrite dict_zip_is_Some. intros [i [Hi _]]%elem_of_take.
    by eapply list_elem_of_lookup_2. }
  destruct (Nat.lt_total (length fns) (length row)) as [H|[H|H]].
  - by rewrite make_row_long.
  - by rewrite make_row_exact.
  - rewrite make_row_short by done. simpl. rewrite fill_restval_lookup.
    case_decide as Hd; [|done].
    intros _. rewrite <- (take_drop (length row) fns). apply elem_of_app. by right.
Qed.

(** A column whose cell the line lacks holds [None]. *)
Lemma make_row_missing fns row k :
  k ∈ drop (length row) fns → fields (make_row fns row) !! k = Some None.
Proof.
  intros Hk.
  assert (length row < length fns).
  { destruct (decide (length row < length fns)); [done|].
    rewrite drop_ge in Hk by lia. by apply elem_of_nil in Hk. }
  rewrite make_row_short by done. simpl.
  rewrite fill_restval_lookup. by rewrite decide_True.
Qed.

Lemma make_row_rest fns row :
  length row ≤ length fns → rest (make_row fns row) = None.
Proof.
  intros H. unfold make_row. rewrite (proj2 (Nat.ltb_ge _ _)) by lia.
  by destruct (_ <? _).
Qed.

(** A row whose cells are a function of the column names is read back
    as that function. *)
Lemma make_row_fun (g : str → str) fns k :
  fields (make_row fns (g <$> fns)) !! k
  = if decide (k ∈ fns) then Some (Some (g k)) else None.
Proof.
  rewrite make_row_exact by apply length_fmap. simpl. unfold dict_zip.
  case_decide as Hd.
  - apply zip_insert_fun.
    + intros [a b] Hab. simpl.
      apply list_elem_of_lookup in Hab as [i Hi].
      apply lookup_zip_with_Some in Hi as (x & y & [= -> ->] & Hx & Hy).
      rewrite list_lookup_fmap, Hx in Hy. by injection Hy as <-.
    + by rewrite fst_zip by (rewrite length_fmap; lia).
  - rewrite zip_insert_notin, lookup_empty; [done|].
    by rewrite fst_zip by (rewrite length_fmap; lia).
Qed.

End reader.

(** ** The Row Validator *)

Example empty_sku_errs :
  row_errs (make_row REQ empty_sku_cells) = [lit "sku empty"].
Proof. vm_compute. reflexivity. Qed.

Example good_row_errs : row_errs (make_row REQ good_cells) = [].
Proof. vm_compute. reflexivity. Qed.

Section validator.
Implicit Types (row : row_dict) (b m : str) (fns : list str).

Lemma is_flag_false (v : str) :
  is_flag v = false ↔ ¬ (v = lit "true" ∨ v = lit "false").
Proof.
  unfold is_flag. rewrite orb_false_iff, !bool_decide_eq_false. tauto.
Qed.

(** The errors of a row, check by check, in the order of the source. *)
Lemma row_errs_eq row :
  row_errs row
  = (if is_flag (norm row (lit "fragrance_free")) then []
     else [flag_msg row (lit "fragrance_free")])
    ++ (if is_flag (norm row (lit "oil_based")) then []
        else [flag_msg row (lit "oil_based")])
    ++ (if is_flag (norm row (lit "condom_compatible")) then []
        else [flag_msg row (lit "condom_compatible")])
    ++ (if bool_decide (norm row (lit "oil_based") = lit "true")
           && negb (bool_decide (norm row (lit "condom_compatible") = lit "false"))
        then [cross_msg] else [])
    ++ (match strip (str_of (get row (lit "sku") (Some []))) with
        | [] => [lit "sku empty"] | _ => [] end)
    ++ (match strip (str_of (get row (lit "name") (Some []))) with
        | [] => [lit "name empty"] | _ => [] end).
Proof.
  unfold row_errs, flags. cbn [foldl].
  destruct (is_flag (norm row (lit "fragrance_free")));
    destruct (is_flag (norm row (lit "oil_based")));
    destruct (is_flag (norm row (lit "condom_compatible")));
    destruct (bool_decide _ && negb _);
    destruct (strip (str_of (get row (lit "sku") _)));
    destruct (strip (str_of (get row (lit "name") _)));
    reflexivity.
Qed.

Lemma elem_of_flag_piece row b m :
  m ∈ (if is_flag (norm row b) then [] else [flag_msg row b])
  ↔ is_flag (norm row b) = false ∧ m = flag_msg row b.
Proof.
  destruct (is_flag _).
  - rewrite elem_of_nil. split; [done|by intros [? _]].
  - rewrite list_elem_of_singleton. tauto.
Qed.

(** Where each message of a row comes from. *)
Lemma elem_of_row_errs row m :
  m ∈ row_errs row ↔
    (∃ b, b ∈ flags ∧ is_flag (norm row b) = false ∧ m = flag_msg row b)
    ∨ (norm row (lit "oil_based") = lit "true"
       ∧ norm row (lit "condom_compatible") ≠ lit "false" ∧ m = cross_msg)
    ∨ (strip (str_of (get row (lit "sku") (Some []))) = [] ∧ m = lit "sku empty")
    ∨ (strip (str_of (get row (lit "name") (Some []))) = [] ∧ m = lit "name empty").
Proof.
  rewrite row_errs_eq, !elem_of_app, !elem_of_flag_piece.
  assert (Hc : m ∈ (if bool_decide (norm row (lit "oil_based") = lit "true")
                       && negb (bool_decide (norm row (lit "condom_compatible") = lit "false"))
                    then [cross_msg] else [])
               ↔ norm row (lit "oil_based") = lit "true"
                 ∧ norm row (lit "condom_compatible") ≠ lit "false" ∧ m = cross_msg).
  { destruct (bool_decide _ && negb _) eqn:E.
    - apply andb_true_iff in E as [E1 E2].
      apply bool_decide_eq_true in E1. apply negb_true_iff, bool_decide_eq_false in E2.
      rewrite list_elem_of_singleton. tauto.
    - rewrite elem_of_nil. split; [done|]. intros (E1 & E2 & _).
      rewrite (bool_decide_eq_true_2 _ E1), (bool_decide_eq_false_2 _ E2) in E.
      done. }
  assert (Hs : ∀ k (e : str),
             m ∈ (match strip (str_of (get row k (Some []))) with
                  | [] => [e] | _ => [] end)
             ↔ strip (str_of (get row k (Some []))) = [] ∧ m = e).
  { intros k e. destruct (strip _).
    - rewrite list_elem_of_singleton. tauto.
    - rewrite elem_of_nil. split; [done|by intros [? _]]. }
  rewrite Hc, !Hs. unfold flags. split.
  - intros [H|[H|[H|[H|[H|H]]]]].
    + left. exists (lit "fragrance_free"). split; [left|exact H].
    + left. exists (lit "oil_based"). split; [right; left|exact H].
    + left. exists (lit "condom_compatible"). split; [do 2 right; left|exact H].
    + right; left; exact H.
    + do 2 right; left; exact H.
    + do 3 right; exact H.
  - intros [(b & Hb & H)|[H|[H|H]]].
    + rewrite !elem_of_cons, elem_of_nil in Hb.
      destruct Hb as [->|[->|[->|[]]]]; tauto.
    + tauto.
    + tauto.
    + tauto.
Qed.

(** The messages of the checks cannot be taken for one another. *)
Lemma flag_msg_inj row b b' :
  b ∈ flags → b' ∈ flags → flag_msg row b = flag_msg row b' → b = b'.
Proof.
  unfold flags, flag_msg. rewrite !elem_of_cons, !elem_of_nil.
  intros [->|[->|[->|[]]]] [->|[->|[->|[]]]]; try reflexivity;
    generalize (str_of (get row (lit "fragrance_free") None));
    generalize (str_of (get row (lit "oil_based") None));
    generalize (str_of (get row (lit "condom_compatible") None));
    intros x y z H; vm_compute in H; discriminate H.
Qed.

Lemma flag_msg_not_other row b :
  b ∈ flags →
  flag_msg row b ≠ cross_msg ∧ flag_msg row b ≠ lit "sku empty"
  ∧ flag_msg row b ≠ lit "name empty".
Proof.
  unfold flags, flag_msg, cross_msg. rewrite !elem_of_cons, !elem_of_nil.
  intros [->|[->|[->|[]]]]; repeat split;
    generalize (str_of (get row (lit "fragrance_free") None));
    generalize (str_of (get row (lit "oil_based") None));
    generalize (str_of (get row (lit "condom_compatible") None));
    intros x y z H; vm_compute in H; discriminate H.
Qed.

Lemma missing_cols_nil fns :
  missing_cols fns = [] ↔ ∀ c, c ∈ REQ → c ∈ fns.
Proof.
  unfold missing_cols. split.
  - intros H c Hc. destruct (decide (c ∈ fns)) as [|Hn]; [done|].
    by destruct (filter_nil_not_elem_of _ _ c H Hn).
  - intros H. destruct (filter _ REQ) as [|c l] eqn:E; [done|].
    assert (Hc : c ∈ filter (λ c, c ∉ fns) REQ) by (rewrite E; left).
    apply list_elem_of_filter in Hc as [Hn Hc]. destruct (Hn (H c Hc)).
Qed.

(** The row loop: the rows with errors are counted, and reported in
    the order of the file. *)
Lemma check_rows (rs : list row_dict) i bad (out : list str) :
  foldl check_row (bad, out) (enumerate rs i)
  = (bad + length (filter (λ ir, row_errs ir.2 ≠ []) (enumerate rs i)),
     out ++ ((λ ir, report ir.1 ir.2 (row_errs ir.2))
               <$> filter (λ ir, row_errs ir.2 ≠ []) (enumerate rs i))).
Proof.
  revert i bad out; induction rs as [|r rs IH]; intros i bad out.
  - simpl. by rewrite Nat.add_0_r, app_nil_r.
  - rewrite enumerate_cons. cbn [foldl]. unfold check_row at 2. cbn [fst snd].
    destruct (row_errs r) as [|e errs] eqn:E.
    + rewrite IH. rewrite filter_cons_False; [done|]. cbn [snd]. rewrite E. tauto.
    + rewrite IH. rewrite filter_cons_True by (cbn [snd]; by rewrite E).
      cbn [fmap list_fmap length fst snd]. rewrite E.
      f_equal; [lia|]. by rewrite <- app_assoc.
Qed.

(** A file that passes both checks: the report, the summary, status 0. *)
Lemma validate_pass argv (fs : files) fns rows :
  fs (PATH argv) = Some (fns :: rows) →
  (∀ c, c ∈ REQ → c ∈ fns) →
  let bad := filter (λ ir, row_errs ir.2 ≠ [])
                    (enumerate (records (fns :: rows)) 2) in
  validate argv fs
  = Process (((λ ir, report ir.1 ir.2 (row_errs ir.2)) <$> bad)
             ++ [summary (length bad)]) [] 0.
Proof.
  intros Hf Hreq bad. unfold validate. rewrite Hf. cbn [fieldnames head].
  rewrite (proj2 (missing_cols_nil fns) Hreq).
  rewrite check_rows. reflexivity.
Qed.

Lemma validate_missing_cols argv (fs : files) fns rows :
  fs (PATH argv) = Some (fns :: rows) →
  missing_cols fns ≠ [] →
  validate argv fs
  = Process [lit "Missing columns: " ++ join (lit ", ") (missing_cols fns)] [] 1.
Proof.
  intros Hf Hm. unfold validate. rewrite Hf. cbn [fieldnames head].
  destruct (missing_cols fns); [done|reflexivity].
Qed.

End validator.

Lemma get_present (row : row_dict) (k : str) (raw : str) (default : value) :
  fields row !! k = Some (Some raw) → get row k default = Some raw.
Proof. intros H. unfold get. by rewrite H. Qed.

(** After the schema check the record always has the key [sku], so the
    default of [row.get('sku','?')] is never taken. *)
Lemma sku_default_unused fns cells :
  lit "sku" ∈ fns →
  get (make_row fns cells) (lit "sku") (Some (lit "?"))
  = get (make_row fns cells) (lit "sku") None.
Proof.
  intros H. unfold get.
  by destruct (make_row_present fns cells _ H) as [v ->].
Qed.

(** C1: evaluation at the scenario of the claim.  For a row with
    [sku=""] and [name="Foo"] that breaks no other rule, the validator
    prints one line for the row with the only error ["sku empty"], and
    counts the row; but the prefix shows the empty SKU as it is, [()],
    and not as ["?"]. *)
Theorem empty_sku_report_prefix :
  validate validator_argv (only empty_sku_file)
  = Process [lit "Row 2 (): sku empty"; lit "1 row(s) need fixes"] [] 0.
Proof. vm_compute. reflexivity. Qed.

(** C2: when the header lacks a required column, the validator prints
    the one line ["Missing columns: ..."] with exactly the required
    columns that the header lacks, in the order of [REQ], and exits with
    status 1; nothing is printed for any data row, whatever the rows
    are. *)
Theorem missing_columns_reported argv (fs : files) fns rows :
  fs (PATH argv) = Some (fns :: rows) →
  (∃ c, c ∈ REQ ∧ c ∉ fns) →
  validate argv fs
  = Process [lit "Missing columns: " ++ join (lit ", ") (missing_cols fns)] [] 1
  ∧ (∀ c, c ∈ missing_cols fns ↔ c ∈ REQ ∧ c ∉ fns)
  ∧ missing_cols fns `sublist_of` REQ.
Proof.
  intros Hf (c & Hc & Hn). split; [|split].
  - apply validate_missing_cols with rows; [done|].
    intros Hnil. apply Hn. by apply (proj1 (missing_cols_nil fns) Hnil).
  - intros c'. unfold missing_cols. rewrite list_elem_of_filter. tauto.
  - apply sublist_filter.
Qed.

Lemma missing_columns_reported_witness :
  validate validator_argv (only [[lit "sku"; lit "name"]; [lit "SKU1"; lit "Foo"]])
  = Process [lit "Missing columns: aliases, category, skin_types, key_ingredients, claims, fragrance_free, oil_based, condom_compatible, size_ml, price, usage, contraindications, notes"] [] 1.
Proof.
  refine (proj1 (missing_columns_reported validator_argv (only _) [lit "sku"; lit "name"]
                   [[lit "SKU1"; lit "Foo"]] eq_refl _)).
  exists (lit "aliases"). split; compute_done.
Defined.

(** C3: the exit status is non-zero exactly when the input file does not
    exist or the schema check does not pass (the file has no header row,
    or the header lacks a required column), and it is 1 then; for a file
    that passes both, the status is 0 whatever number of rows have
    errors, that number being printed in the summary line only. *)
Theorem exit_status argv (fs : files) :
  (status (validate argv fs) ≠ 0%Z ↔
     fs (PATH argv) = None
     ∨ ∃ f, fs (PATH argv) = Some f
            ∧ ¬ ∃ fns rows, f = fns :: rows ∧ ∀ c, c ∈ REQ → c ∈ fns)
  ∧ (status (validate argv fs) ≠ 0%Z → status (validate argv fs) = 1%Z)
  ∧ (∀ fns rows,
       fs (PATH argv) = Some (fns :: rows) → (∀ c, c ∈ REQ → c ∈ fns) →
       status (validate argv fs) = 0%Z
       ∧ last (stdout (validate argv fs))
         = Some (summary (length (filter (λ r, row_errs r ≠ [])
                                         (records (fns :: rows)))))).
Proof.
  split; [|split].
  - destruct (fs (PATH argv)) as [[|fns rows]|] eqn:Hf.
    + unfold validate. rewrite Hf. cbn. split; [|done]. intros _. right.
      exists []. split; [done|]. by intros (? & ? & [=] & _).
    + destruct (decide (missing_cols fns = [])) as [Hm|Hm].
      * rewrite (validate_pass argv fs fns rows Hf (proj1 (missing_cols_nil _) Hm)).
        cbn. split; [done|]. intros [[=]|(f & [= <-] & Hno)].
        destruct Hno. exists fns, rows. split; [done|by apply missing_cols_nil].
      * rewrite (validate_missing_cols argv fs fns rows Hf Hm). cbn.
        split; [|done]. intros _. right. eexists. split; [done|].
        intros (? & ? & [= <- <-] & Hall). by apply Hm, missing_cols_nil.
    + unfold validate. rewrite Hf. cbn. split; [|done]. intros _. by left.
  - unfold validate. destruct (fs (PATH argv)) as [f|]; [|done].
    destruct (fieldnames f); [|done]. by destruct (missing_cols _).
  - intros fns rows Hf Hreq. rewrite (validate_pass argv fs fns rows Hf Hreq).
    cbn [status stdout]. split; [done|]. rewrite last_snoc. do 2 f_equal.
    generalize (records (fns :: rows)) 2. clear.
    intros rs; induction rs as [|r rs IH]; intros i; [done|].
    rewrite enumerate_cons. destruct (decide (row_errs r ≠ [])) as [Hr|Hr].
    + rewrite !filter_cons_True by done. cbn [length]. by rewrite IH.
    + rewrite !filter_cons_False by done. apply IH.
Qed.

Lemma exit_status_witness :
  status (validate validator_argv (only empty_sku_file)) = 0%Z
  ∧ last (stdout (validate validator_argv (only empty_sku_file)))
    = Some (summary (length (filter (λ r, row_errs r ≠ [])
                                    (records empty_sku_file)))).
Proof.
  refine (proj2 (proj2 (exit_status validator_argv (only empty_sku_file)))
            REQ [empty_sku_cells] eq_refl _).
  intros c Hc. exact Hc.
Defined.

(** C4: a row whose [oil_based] trims and lowercases to ["true"] while
    its [condom_compatible] does not trim and lowercase to ["false"] has
    the cross-field message among its errors; when [condom_compatible]
    is no boolean at all, its own flag message is there as well. *)
Theorem cross_field_reported (row : row_dict) :
  lower (strip (str_of (get row (lit "oil_based") (Some [])))) = lit "true" →
  lower (strip (str_of (get row (lit "condom_compatible") (Some [])))) ≠ lit "false" →
  lit "oil_based=true must imply condom_compatible=false" ∈ row_errs row
  ∧ (lower (strip (str_of (get row (lit "condom_compatible") (Some [])))) ≠ lit "true" →
     lit "condom_compatible='" ++ str_of (get row (lit "condom_compatible") None)
       ++ lit "' not true/false" ∈ row_errs row).
Proof.
  intros Ho Hc. split.
  - apply elem_of_row_errs. right; left. done.
  - intros Hc'. apply elem_of_row_errs. left.
    exists (lit "condom_compatible"). split; [|split].
    + do 2 right; left.
    + apply is_flag_false. unfold norm. tauto.
    + reflexivity.
Qed.

Lemma cross_field_reported_witness :
  let row := make_row [lit "oil_based"; lit "condom_compatible"]
                      [lit " TRUE "; lit "maybe"] in
  lit "oil_based=true must imply condom_compatible=false" ∈ row_errs row
  ∧ (lower (strip (str_of (get row (lit "condom_compatible") (Some [])))) ≠ lit "true" →
     lit "condom_compatible='" ++ str_of (get row (lit "condom_compatible") None)
       ++ lit "' not true/false" ∈ row_errs row).
Proof.
  intros row. apply (cross_field_reported row).
  - vm_compute. reflexivity.
  - vm_compute. discriminate.
Defined.

(** C5: for each of the three flag columns, the row has the flag message
    of that column among its errors exactly when the value, trimmed and
    lowercased, is neither ["true"] nor ["false"]; the message is made of
    the column name and the value as it stands in the row, and the empty
    value is an error. *)
Theorem flag_error_iff (row : row_dict) (b : str) :
  b ∈ flags →
  (b ++ lit "='" ++ str_of (get row b None) ++ lit "' not true/false" ∈ row_errs row
   ↔ ¬ (lower (strip (str_of (get row b (Some [])))) = lit "true"
        ∨ lower (strip (str_of (get row b (Some [])))) = lit "false"))
  ∧ (∀ raw, fields row !! b = Some (Some raw) →
       (b ++ lit "='" ++ raw ++ lit "' not true/false" ∈ row_errs row
        ↔ ¬ (lower (strip raw) = lit "true" ∨ lower (strip raw) = lit "false")))
  ∧ (fields row !! b = Some (Some []) →
     b ++ lit "='' not true/false" ∈ row_errs row).
Proof.
  intros Hb.
  assert (H1 : flag_msg row b ∈ row_errs row ↔ ¬ (norm row b = lit "true" ∨ norm row b = lit "false")).
  { rewrite elem_of_row_errs. split.
    - destruct (flag_msg_not_other row b Hb) as (Hx & Hs & Hn).
      intros [(b' & Hb' & Hf & Heq)|[(_ & _ & ?)|[[_ ?]|[_ ?]]]]; try done.
      apply (flag_msg_inj row b b' Hb Hb') in Heq as <-. by apply is_flag_false.
    - intros H. left. exists b. split; [done|]. split; [|done]. by apply is_flag_false. }
  split; [exact H1|]. split.
  - intros raw Hraw. unfold flag_msg, norm in H1.
    by rewrite !(get_present row b raw _ Hraw) in H1.
  - intros Hraw. unfold flag_msg, norm in H1.
    rewrite !(get_present row b [] _ Hraw) in H1.
    apply H1. cbn. intros [[=]|[=]].
Qed.

Lemma flag_error_iff_witness :
  let row := make_row [lit "fragrance_free"] [lit "Yes"] in
  lit "fragrance_free='Yes' not true/false" ∈ row_errs row.
Proof.
  intros row.
  refine (proj2 (proj1 (proj2 (flag_error_iff row (lit "fragrance_free") _))
                   (lit "Yes") _) _).
  - left.
  - vm_compute. reflexivity.
  - vm_compute. intros [H|H]; discriminate H.
Defined.

(** C9: evaluation at lines that lack their last cells, under headers
    that have all 15 required columns.  With [sku] as the last column
    and a line of one cell the record holds [None] under [sku];
    [str(None)] is ["None"], which is not blank, so the row is reported
    for its three flags, shown with the SKU [None], and no ["sku empty"]
    is among its errors.  With [name] as the last column the same
    happens for ["name empty"].  Both runs end with status 0. *)
Theorem missing_cell_not_empty :
  (let row := make_row sku_last [lit "Foo"] in
   fields row !! lit "sku" = Some None
   ∧ (lit "sku empty" ∉ row_errs row)
   ∧ validate validator_argv (only [sku_last; [lit "Foo"]])
     = Process [lit "Row 2 (None): fragrance_free='None' not true/false; oil_based='None' not true/false; condom_compatible='None' not true/false";
                lit "1 row(s) need fixes"] [] 0)
  ∧ (let name_last := lit "sku" :: drop 2 REQ ++ [lit "name"] in
     let row := make_row name_last [lit "SKU1"] in
     fields row !! lit "name" = Some None
     ∧ (lit "name empty" ∉ row_errs row)
     ∧ validate validator_argv (only [name_last; [lit "SKU1"]])
       = Process [lit "Row 2 (SKU1): fragrance_free='None' not true/false; oil_based='None' not true/false; condom_compatible='None' not true/false";
                  lit "1 row(s) need fixes"] [] 0).
Proof.
  split; intros; (split; [|split]); try (vm_compute; reflexivity).
  - assert (E : row_errs row
                = [lit "fragrance_free='None' not true/false";
                   lit "oil_based='None' not true/false";
                   lit "condom_compatible='None' not true/false"])
      by (vm_compute; reflexivity).
    rewrite E, !elem_of_cons, elem_of_nil.
    intros [H|[H|[H|[]]]]; vm_compute in H; discriminate H.
  - assert (E : row_errs row
                = [lit "fragrance_free='None' not true/false";
                   lit "oil_based='None' not true/false";
                   lit "condom_compatible='None' not true/false"])
      by (vm_compute; reflexivity).
    rewrite E, !elem_of_cons, elem_of_nil.
    intros [H|[H|[H|[]]]]; vm_compute in H; discriminate H.
Qed.

(** ** The Column Enricher *)

Example enrich_adds_columns :
  enrich enricher_argv (only [[lit "sku"; lit "notes"]; [lit "A1"; lit "n"]; []; [lit "A2"]])
  = (Process [lit "Wrote products_enriched.csv with columns: sku, notes, aliases, skin_types, oil_based, condom_compatible"] [] 0,
     Some [[lit "sku"; lit "notes"; lit "aliases"; lit "skin_types";
            lit "oil_based"; lit "condom_compatible"];
           [lit "A1"; lit "n"; []; []; []; []];
           [lit "A2"; []; []; []; []; []]]).
Proof. vm_compute. reflexivity. Qed.

Example enrich_empty_file :
  enrich enricher_argv (only []) = (Process [lit "Wrote products_enriched.csv with columns: aliases, skin_types, oil_based, condom_compatible, notes"] [] 0, Some [need]).
Proof. vm_compute. reflexivity. Qed.

Section enricher.
Implicit Types (row : row_dict) (k : str) (fns ks : list str).

Lemma filter_notin_nil (l fns : list str) :
  filter (λ k, k ∉ fns) l = [] ↔ ∀ k, k ∈ l → k ∈ fns.
Proof.
  split.
  - intros H k Hk. destruct (decide (k ∈ fns)) as [|Hn]; [done|].
    by destruct (filter_nil_not_elem_of _ _ k H Hn).
  - intros H. destruct (filter _ l) as [|c l'] eqn:E; [done|].
    assert (Hc : c ∈ filter (λ k, k ∉ fns) l) by (rewrite E; left).
    apply list_elem_of_filter in Hc as [Hn Hc]. destruct (Hn (H c Hc)).
Qed.

Lemma filter_notin_snoc (l fns : list str) k :
  k ∉ l → filter (λ c, c ∉ fns ++ [k]) l = filter (λ c, c ∉ fns) l.
Proof.
  induction l as [|c l IH]; intros Hk; [done|].
  apply not_elem_of_cons in Hk as [Hne Hk].
  destruct (decide (c ∈ fns)) as [Hin|Hout].
  - rewrite !filter_cons_False; [by apply IH| |].
    + intros Hn. by apply Hn.
    + intros Hn. apply Hn, elem_of_app. by left.
  - rewrite !filter_cons_True; [by rewrite IH|done|].
    rewrite elem_of_app, list_elem_of_singleton. intros [?|?]; [done|].
    by apply Hne.
Qed.

Lemma append_absent ks fns :
  NoDup ks →
  foldl (λ fieldnames k,
           if bool_decide (k ∈ fieldnames) then fieldnames
           else fieldnames ++ [k]) fns ks
  = fns ++ filter (λ k, k ∉ fns) ks.
Proof.
  revert fns; induction ks as [|k ks IH]; intros fns Hnd.
  - by rewrite app_nil_r.
  - apply NoDup_cons in Hnd as [Hk Hnd]. cbn [foldl].
    destruct (decide (k ∈ fns)) as [Hin|Hout].
    + rewrite bool_decide_eq_true_2 by done. rewrite IH by done.
      rewrite filter_cons_False; [done|]. intros Hn. by apply Hn.
    + rewrite bool_decide_eq_false_2 by done. rewrite IH by done.
      rewrite filter_cons_True by done.
      rewrite filter_notin_snoc by done. by rewrite <- app_assoc.
Qed.

(** The header that is written: the columns of the file, then the
    needed columns that the file lacks, in the order of [need]. *)
Lemma add_needed_eq fns :
  add_needed fns = fns ++ filter (λ k, k ∉ fns) need.
Proof. apply append_absent. compute_done. Qed.

Lemma elem_of_add_needed fns k :
  k ∈ add_needed fns ↔ k ∈ fns ∨ k ∈ need.
Proof.
  rewrite add_needed_eq, elem_of_app, list_elem_of_filter.
  destruct (decide (k ∈ fns)); tauto.
Qed.

Lemma add_needed_id fns : (∀ k, k ∈ need → k ∈ fns) → add_needed fns = fns.
Proof.
  intros H. rewrite add_needed_eq.
  rewrite (proj2 (filter_notin_nil need fns) H). apply app_nil_r.
Qed.

Lemma defaults_total k : defaults !!! k = ([] : str).
Proof.
  rewrite lookup_total_alt. unfold defaults, need. cbn [foldl].
  repeat (rewrite lookup_insert; case_decide; [done|]).
  by rewrite lookup_empty.
Qed.

Lemma setdefault_lookup row k (v : str) k' :
  fields (setdefault row k v) !! k'
  = match fields row !! k' with
    | Some x => Some x
    | None => if decide (k' = k) then Some (Some v) else None
    end.
Proof.
  unfold setdefault. destruct (fields row !! k) as [x|] eqn:E.
  - destruct (fields row !! k') eqn:E'; [done|].
    destruct (decide (k' = k)) as [->|]; [congruence|done].
  - cbn [fields]. destruct (decide (k' = k)) as [->|Hne].
    + by rewrite lookup_insert_eq, E.
    + rewrite lookup_insert_ne by done. by destruct (fields row !! k').
Qed.

Lemma setdefault_rest row k (v : str) : rest (setdefault row k v) = rest row.
Proof. unfold setdefault. by destruct (fields row !! k). Qed.

Lemma setdefaults_lookup ks row k :
  fields (foldl (λ row k, setdefault row k (defaults !!! k)) row ks) !! k
  = match fields row !! k with
    | Some x => Some x
    | None => if decide (k ∈ ks) then Some (Some []) else None
    end.
Proof.
  revert row; induction ks as [|k' ks IH]; intros row.
  - cbn [foldl]. destruct (fields row !! k); [done|].
    destruct (decide (k ∈ [])) as [Hin|]; [by apply elem_of_nil in Hin|done].
  - cbn [foldl]. rewrite IH, setdefault_lookup, defaults_total.
    destruct (fields row !! k); [done|].
    destruct (decide (k = k')) as [->|Hne].
    + destruct (decide (k' ∈ k' :: ks)) as [|Hn]; [done|]. destruct Hn. left.
    + destruct (decide (k ∈ ks)) as [Hin|Hout];
        destruct (decide (k ∈ k' :: ks)) as [Hin'|Hout']; try done.
      * destruct Hout'. by right.
      * apply elem_of_cons in Hin' as [?|?]; done.
Qed.

(** [fill_defaults] on the record, key by key. *)
Lemma fill_defaults_lookup row k :
  fields (fill_defaults row) !! k
  = match fields row !! k with
    | Some x => Some x
    | None => if decide (k ∈ need) then Some (Some []) else None
    end.
Proof. apply setdefaults_lookup. Qed.

Lemma fill_defaults_rest row : rest (fill_defaults row) = rest row.
Proof.
  unfold fill_defaults. generalize need. intros ks.
  revert row; induction ks as [|k ks IH]; intros row; [done|].
  cbn [foldl]. by rewrite IH, setdefault_rest.
Qed.

Lemma wrong_fields_nil fns row :
  wrong_fields fns row = []
  ↔ rest row = None ∧ ∀ k, is_Some (fields row !! k) → k ∈ fns.
Proof.
  unfold wrong_fields.
  assert (Hkeys : ∀ k, k ∈ (map_to_list (fields row)).*1 ↔ is_Some (fields row !! k)).
  { intros k. rewrite list_elem_of_fmap. split.
    - intros ([k' v] & -> & Hkv). apply elem_of_map_to_list in Hkv. by eexists.
    - intros [v Hv]. exists (k, v). split; [done|]. by apply elem_of_map_to_list. }
  split.
  - intros H. apply app_eq_nil in H as [H1 H2]. split.
    + by destruct (rest row).
    + intros k Hk. apply fmap_nil_inv in H1.
      apply (proj1 (filter_notin_nil _ fns) H1). by apply Hkeys.
  - intros [Hr Hk]. rewrite Hr.
    rewrite (proj2 (filter_notin_nil _ fns)); [done|].
    intros k Hin. by apply Hk, Hkeys.
Qed.

Lemma dict_to_list_ok fns row :
  rest row = None → (∀ k, is_Some (fields row !! k) → k ∈ fns) →
  dict_to_list fns row = inr ((λ key, get row key (Some [])) <$> fns).
Proof.
  intros Hr Hk. unfold dict_to_list.
  by rewrite (proj2 (wrong_fields_nil fns row) (conj Hr Hk)).
Qed.

Lemma dict_to_list_surplus fns row :
  is_Some (rest row) → dict_to_list fns row = inl ValueError.
Proof.
  intros [l Hl]. unfold dict_to_list.
  destruct (wrong_fields fns row) eqn:E; [|done].
  apply wrong_fields_nil in E as [E _]. congruence.
Qed.

Lemma dict_to_list_inr fns row cells :
  dict_to_list fns row = inr cells →
  cells = (λ key, get row key (Some [])) <$> fns.
Proof.
  unfold dict_to_list. destruct (wrong_fields fns row); [|done]. by intros [= <-].
Qed.

(** The written rows only grow. *)
Lemma writerows_prefix fns (rows : list row_dict) written :
  ∃ more, (writerows fns rows written).1 = written ++ more.
Proof.
  revert written; induction rows as [|row rows IH]; intros written; cbn.
  - exists []. by rewrite app_nil_r.
  - destruct (dict_to_list fns row) as [e|cells].
    + exists []. by rewrite app_nil_r.
    + destruct (IH (written ++ [cell <$> cells])) as [more ->].
      eexists. by rewrite <- app_assoc.
Qed.

(** When no row raises, one line is written for each row, in order. *)
Lemma writerows_ok fns (rows : list row_dict) written w :
  writerows fns rows written = (w, None) →
  w = written ++ ((λ row, (λ key, cell (get row key (Some []))) <$> fns) <$> rows).
Proof.
  revert written; induction rows as [|row rows IH]; intros written; cbn.
  - intros [= <-]. by rewrite app_nil_r.
  - destruct (dict_to_list fns row) as [e|cells] eqn:E; [done|].
    intros H. apply IH in H as ->. apply dict_to_list_inr in E as ->.
    rewrite <- app_assoc. cbn. by rewrite <- list_fmap_compose.
Qed.

Lemma writerows_all fns (rows : list row_dict) written :
  Forall (λ row, rest row = None ∧ ∀ k, is_Some (fields row !! k) → k ∈ fns) rows →
  writerows fns rows written
  = (written ++ ((λ row, (λ key, cell (get row key (Some []))) <$> fns) <$> rows),
     None).
Proof.
  revert written; induction rows as [|row rows IH]; intros written Hall; cbn.
  - by rewrite app_nil_r.
  - apply Forall_cons in Hall as [[Hr Hk] Hall].
    rewrite dict_to_list_ok by done. rewrite IH by done.
    rewrite <- app_assoc. cbn. by rewrite <- list_fmap_compose.
Qed.

(** A row without surplus cells can be written under the extended
    header. *)
Lemma enriched_row_fits fns cells :
  length cells ≤ length fns →
  let row := fill_defaults (make_row fns cells) in
  rest row = None ∧ ∀ k, is_Some (fields row !! k) → k ∈ add_needed fns.
Proof.
  intros Hlen row. split.
  - unfold row. rewrite fill_defaults_rest. by apply make_row_rest.
  - intros k. unfold row. rewrite fill_defaults_lookup, elem_of_add_needed.
    destruct (fields (make_row fns cells) !! k) eqn:E.
    + intros _. left. apply (make_row_keys fns cells). eexists. exact E.
    + destruct (decide (k ∈ need)); [by right|]. by intros [? [=]].
Qed.

End enricher.

Section enricher_runs.
Implicit Types (H : list str) (rows : list (list str)).

Lemma data_rows_nonblank H rows :
  Forall (λ cells, cells ≠ []) rows → data_rows (H :: rows) = rows.
Proof.
  unfold data_rows. cbn [tail]. induction 1 as [|cells rows Hc _ IH]; [done|].
  rewrite filter_cons_True by (by destruct cells). by rewrite IH.
Qed.

(** Cells under distinct column names are a function of the names. *)
Lemma cells_as_function H (cells : list str) :
  NoDup H → length cells = length H → ∃ g : str → str, cells = g <$> H.
Proof.
  revert cells; induction H as [|h H IH]; intros [|x cells] Hnd Hlen; try done.
  - by exists (λ _, []).
  - apply NoDup_cons in Hnd as [Hh Hnd]. injection Hlen as Hlen.
    destruct (IH cells Hnd Hlen) as [g ->].
    exists (λ k, if decide (k = h) then x else g k). cbn.
    rewrite decide_True by done. f_equal.
    apply list_fmap_ext. intros i k Hk.
    rewrite decide_False; [done|]. intros ->.
    apply Hh. by eapply list_elem_of_lookup_2.
Qed.

(** Such a row, under a header that has every needed column, is written
    back as it was read. *)
Lemma row_written_back H (g : str → str) :
  (∀ k, k ∈ need → k ∈ H) →
  (λ key, cell (get (fill_defaults (make_row H (g <$> H))) key (Some []))) <$> H
  = g <$> H.
Proof.
  intros Hneed. apply list_fmap_ext. intros i k Hk.
  apply list_elem_of_lookup_2 in Hk. unfold get.
  rewrite fill_defaults_lookup, make_row_fun.
  destruct (decide (k ∈ H)); done.
Qed.

Lemma enrich_fixed argv (fs : files) H rows :
  fs (in_path argv) = Some (H :: rows) →
  (∀ k, k ∈ need → k ∈ H) →
  Forall (λ cells, ∃ g : str → str, cells = g <$> H) rows →
  enrich argv fs
  = (Process [lit "Wrote " ++ out_path argv ++ lit " with columns: "
              ++ join (lit ", ") H] [] 0,
     Some (H :: rows)).
Proof.
  intros Hf Hneed Hrows.
  assert (Hne : H ≠ []).
  { intros ->. specialize (Hneed (lit "notes")).
    apply (elem_of_nil (lit "notes")), Hneed. compute_done. }
  assert (Hlen : Forall (λ cells, length cells = length H) rows).
  { eapply Forall_impl; [exact Hrows|]. intros cells [g ->]. apply length_fmap. }
  unfold enrich. rewrite Hf. cbn [fieldnames head default from_option id].
  rewrite (add_needed_id H Hneed). unfold records.
  rewrite data_rows_nonblank.
  2:{ eapply Forall_impl; [exact Hlen|]. intros [|] Hc; [|done].
      destruct H; [done|discriminate Hc]. }
  rewrite writerows_all.
  2:{ rewrite <- list_fmap_compose. apply Forall_fmap.
      eapply Forall_impl; [exact Hlen|]. intros cells Hc. cbn.
      pose proof (enriched_row_fits H cells) as Hfit.
      rewrite (add_needed_id H Hneed) in Hfit. apply Hfit.
      cbv beta in Hc. lia. }
  do 3 f_equal. rewrite <- !list_fmap_compose.
  clear Hf Hlen. induction Hrows as [|cells rows [g ->] _ IH]; [done|].
  rewrite fmap_cons, IH. f_equal. exact (row_written_back H g Hneed).
Qed.

(** What a run that ended with status 0 has written: a header with
    every needed column, and rows that are functions of the header. *)
Lemma enrich_success_shape argv (fs : files) p H rows :
  enrich argv fs = (p, Some (H :: rows)) → status p = 0%Z →
  (∀ k, k ∈ need → k ∈ H)
  ∧ Forall (λ cells, ∃ g : str → str, cells = g <$> H) rows.
Proof.
  unfold enrich. destruct (fs (in_path argv)) as [f|]; [|done].
  destruct (writerows _ _ _) as [w [e|]] eqn:E; intros [= <- ->]; [done|].
  intros _. apply writerows_ok in E. cbn in E. injection E as -> ->.
  split.
  - intros k Hk. apply elem_of_add_needed. by right.
  - apply Forall_fmap, Forall_forall. intros row _. cbn.
    by exists (λ key, cell (get row key (Some []))).
Qed.

End enricher_runs.

(** C6, the claim as stated fails: when the input file is absent the
    validator ends with status 1, but its message is printed on the
    standard output stream and nothing reaches the error stream. *)
Lemma validator_fatal_on_stdout :
  validate validator_argv nothing = Process [lit "File not found: products.csv"] [] 1
  ∧ ∀ m, Msg m ∉ stderr (validate validator_argv nothing).
Proof.
  split; [reflexivity|]. intros m H. cbn in H. by apply elem_of_nil in H.
Qed.

(** C6, amended: every fatal condition ends the process with status 1.
    The enricher's message for an absent input file goes to the error
    stream and nothing is printed; the validator prints its two fatal
    messages, for an absent file and for missing columns, on the standard
    output stream and leaves the error stream empty.  The errors of the
    rows are printed on the standard output stream. *)
Theorem fatal_conditions argv (fs : files) :
  (fs (in_path argv) = None →
   enrich argv fs
   = (Process [] [Msg (lit "File not found: " ++ in_path argv)] 1, None))
  ∧ (fs (PATH argv) = None →
     validate argv fs = Process [lit "File not found: " ++ PATH argv] [] 1)
  ∧ (∀ fns rows,
       fs (PATH argv) = Some (fns :: rows) → (∃ c, c ∈ REQ ∧ c ∉ fns) →
       validate argv fs
       = Process [lit "Missing columns: " ++ join (lit ", ") (missing_cols fns)] [] 1)
  ∧ (∀ fns rows,
       fs (PATH argv) = Some (fns :: rows) → (∀ c, c ∈ REQ → c ∈ fns) →
       stderr (validate argv fs) = []
       ∧ ∀ i row,
           (i, row) ∈ enumerate (records (fns :: rows)) 2 → row_errs row ≠ [] →
           report i row (row_errs row) ∈ stdout (validate argv fs)).
Proof.
  split; [|split; [|split]].
  - intros Hf. unfold enrich. by rewrite Hf.
  - intros Hf. unfold validate. by rewrite Hf.
  - intros fns rows Hf (c & Hc & Hn). apply validate_missing_cols with rows; [done|].
    intros Hnil. by apply Hn, (proj1 (missing_cols_nil fns) Hnil).
  - intros fns rows Hf Hreq. rewrite (validate_pass argv fs fns rows Hf Hreq).
    cbn [stderr stdout]. split; [done|]. intros i row Hin Herr.
    apply elem_of_app. left.
    apply (list_elem_of_fmap_2' _ _ (i, row)); [|done].
    apply list_elem_of_filter. by split.
Qed.

Lemma fatal_conditions_witness :
  enrich enricher_argv nothing
  = (Process [] [Msg (lit "File not found: " ++ in_path enricher_argv)] 1, None)
  ∧ validate validator_argv nothing = Process [lit "File not found: " ++ PATH validator_argv] [] 1.
Proof.
  split.
  - exact (proj1 (fatal_conditions enricher_argv nothing) eq_refl).
  - exact (proj1 (proj2 (fatal_conditions validator_argv nothing)) eq_refl).
Defined.

(** C7, the claim as stated fails: a line with more cells than the
    header makes the writer raise [ValueError]; the file then holds the
    header and the rows before that line only, here 1 of 3 rows. *)
Lemma surplus_cell_stops_output :
  enrich enricher_argv (only [[lit "sku"]; [lit "A1"]; [lit "A2"; lit "extra"]; [lit "A3"]])
  = (Process [] [Traceback ValueError] 1,
     Some [[lit "sku"; lit "aliases"; lit "skin_types"; lit "oil_based";
            lit "condom_compatible"; lit "notes"];
           [lit "A1"; []; []; []; []; []]]).
Proof. vm_compute. reflexivity. Qed.

(** C7, amended: the header that is written is always the columns of the
    input in their order, followed by the needed columns that the input
    lacks, in the order of [need].  When no line has more cells than the
    header, the output is this header and one row for each line of the
    input that is not blank, in the order of the input, and the process
    ends with status 0. *)
Theorem output_header_and_rows argv (fs : files) f :
  fs (in_path argv) = Some f →
  let H := default [] (fieldnames f) in
  let hdr := H ++ filter (λ k, k ∉ H) need in
  (∃ more, (enrich argv fs).2 = Some (hdr :: more))
  ∧ (Forall (λ cells, length cells ≤ length H) (data_rows f) →
     enrich argv fs
     = (Process [lit "Wrote " ++ out_path argv ++ lit " with columns: "
                 ++ join (lit ", ") hdr] [] 0,
        Some (hdr :: ((λ cells,
                         (λ key, cell (get (fill_defaults (make_row H cells))
                                           key (Some []))) <$> hdr)
                        <$> data_rows f)))
     ∧ length <$> (enrich argv fs).2 = Some (S (length (data_rows f)))).
Proof.
  intros Hf H hdr.
  assert (Hh : add_needed H = hdr) by apply add_needed_eq.
  assert (Hrec : records f = make_row H <$> data_rows f).
  { destruct f as [|fns rest]; [done|]. reflexivity. }
  assert (Hrun : enrich argv fs
                 = match writerows hdr (fill_defaults <$> records f) [hdr] with
                   | (written, Some e) =>
                     (Process [] [Traceback e] 1, Some written)
                   | (written, None) =>
                     (Process [lit "Wrote " ++ out_path argv
                               ++ lit " with columns: " ++ join (lit ", ") hdr] [] 0,
                      Some written)
                   end).
  { unfold enrich. rewrite Hf. fold H. by rewrite Hh. }
  split.
  - rewrite Hrun.
    destruct (writerows_prefix hdr (fill_defaults <$> records f) [hdr]) as [more Hm].
    exists more. destruct (writerows _ _ _) as [w [e|]]; cbn in *; by rewrite Hm.
  - intros Hall.
    assert (Hw : enrich argv fs
                 = (Process [lit "Wrote " ++ out_path argv ++ lit " with columns: "
                             ++ join (lit ", ") hdr] [] 0,
                    Some (hdr :: ((λ cells,
                                     (λ key, cell (get (fill_defaults (make_row H cells))
                                                       key (Some []))) <$> hdr)
                                    <$> data_rows f)))).
    { rewrite Hrun, Hrec, writerows_all.
      - by rewrite <- !list_fmap_compose.
      - rewrite <- list_fmap_compose. apply Forall_fmap.
        eapply Forall_impl; [exact Hall|]. intros cells Hc. cbn.
        rewrite <- Hh. by apply enriched_row_fits. }
    split; [exact Hw|]. rewrite Hw. cbn. by rewrite length_fmap.
Qed.

Lemma output_header_and_rows_witness :
  enrich enricher_argv (only [[lit "sku"; lit "notes"]; [lit "A1"; lit "n"]; []; [lit "A2"]])
  = (Process [lit "Wrote products_enriched.csv with columns: sku, notes, aliases, skin_types, oil_based, condom_compatible"] [] 0,
     Some [[lit "sku"; lit "notes"; lit "aliases"; lit "skin_types";
            lit "oil_based"; lit "condom_compatible"];
           [lit "A1"; lit "n"; []; []; []; []];
           [lit "A2"; []; []; []; []; []]]).
Proof.
  refine (eq_trans
            (proj1 (proj2 (output_header_and_rows enricher_argv
                             (only [[lit "sku"; lit "notes"]; [lit "A1"; lit "n"];
                                    []; [lit "A2"]]) _ eq_refl) _)) _).
  - repeat constructor.
  - vm_compute. reflexivity.
Defined.

(** A short line is padded with empty cells, and of two columns of one
    name the later cell is written under both: the rows can change even
    when every needed column is there. *)
Example short_row_padded :
  (enrich enricher_argv (only [need; [lit "a"]])).2
  = Some [need; [lit "a"; []; []; []; []]].
Proof. vm_compute. reflexivity. Qed.

Example repeated_column_overwritten :
  (enrich enricher_argv (only [need ++ [lit "notes"];
                    [lit "a"; lit "s"; lit "o"; lit "c"; lit "n1"; lit "n2"]])).2
  = Some [need ++ [lit "notes"];
          [lit "a"; lit "s"; lit "o"; lit "c"; lit "n2"; lit "n2"]].
Proof. vm_compute. reflexivity. Qed.

(** C8, the claim as stated fails: the header below has all five needed
    columns, yet the run raises on the line with a surplus cell and the
    output has lost that row. *)
Lemma complete_header_row_lost :
  enrich enricher_argv (only [need; [lit "a"; lit "s"; lit "o"; lit "c"; lit "n"; lit "x"]])
  = (Process [] [Traceback ValueError] 1, Some [need]).
Proof. vm_compute. reflexivity. Qed.

(** C8, amended: when the header already has all five needed columns, no
    column is added and the header is written as it is, and the output
    file is written all the same.  When moreover the column names are
    distinct and every line has exactly as many cells as the header, the
    rows are written as they were read.  This holds in particular for the
    enricher's own output: a file written by a run that ended with
    status 0 is written again unchanged. *)
Theorem enrich_complete_header argv (fs : files) H rows :
  fs (in_path argv) = Some (H :: rows) →
  (∀ k, k ∈ need → k ∈ H) →
  add_needed H = H
  ∧ (∃ more, (enrich argv fs).2 = Some (H :: more))
  ∧ (NoDup H → Forall (λ cells, length cells = length H) rows →
     enrich argv fs
     = (Process [lit "Wrote " ++ out_path argv ++ lit " with columns: "
                 ++ join (lit ", ") H] [] 0,
        Some (H :: rows)))
  ∧ (∀ argv0 (fs0 : files) p,
       enrich argv0 fs0 = (p, Some (H :: rows)) → status p = 0%Z →
       enrich argv fs
       = (Process [lit "Wrote " ++ out_path argv ++ lit " with columns: "
                   ++ join (lit ", ") H] [] 0,
          Some (H :: rows))).
Proof.
  intros Hf Hneed. split; [by apply add_needed_id|]. split; [|split].
  - unfold enrich. rewrite Hf. cbn [fieldnames head default from_option id].
    rewrite (add_needed_id H Hneed).
    destruct (writerows_prefix H (fill_defaults <$> records (H :: rows)) [H])
      as [more Hm].
    exists more. destruct (writerows _ _ _) as [w [e|]]; cbn in *; by rewrite Hm.
  - intros Hnd Hlen. apply enrich_fixed; [done..|].
    eapply Forall_impl; [exact Hlen|]. intros cells Hc.
    by apply cells_as_function.
  - intros argv0 fs0 p Hrun Hp.
    apply enrich_fixed; [done..|].
    by destruct (enrich_success_shape argv0 fs0 p H rows Hrun Hp).
Qed.

Lemma enrich_complete_header_witness :
  enrich enricher_argv (only [[lit "sku"; lit "notes"; lit "aliases"; lit "skin_types";
                    lit "oil_based"; lit "condom_compatible"];
                   [lit "A1"; lit "n"; []; []; []; []];
                   [lit "A2"; []; []; []; []; []]])
  = (Process [lit "Wrote " ++ out_path enricher_argv ++ lit " with columns: "
              ++ join (lit ", ") [lit "sku"; lit "notes"; lit "aliases";
                                  lit "skin_types"; lit "oil_based";
                                  lit "condom_compatible"]] [] 0,
     Some [[lit "sku"; lit "notes"; lit "aliases"; lit "skin_types";
            lit "oil_based"; lit "condom_compatible"];
           [lit "A1"; lit "n"; []; []; []; []];
           [lit "A2"; []; []; []; []; []]]).
Proof.
  refine (proj2 (proj2 (proj2 (enrich_complete_header enricher_argv (only _) _ _ eq_refl _)))
            enricher_argv
            (only [[lit "sku"; lit "notes"]; [lit "A1"; lit "n"]; []; [lit "A2"]])
            (Process [lit "Wrote products_enriched.csv with columns: sku, notes, aliases, skin_types, oil_based, condom_compatible"] [] 0)
            _ eq_refl).
  - unfold need. intros k Hk. rewrite !elem_of_cons in Hk. rewrite !elem_of_cons. tauto.
  - vm_compute. reflexivity.
Defined.

(** C10: filling the defaults leaves every key that the record has with
    its value, adds the empty string under the needed columns that the
    record lacks and nothing else, and keeps the surplus cells; and the
    cell handed to the writer for a column that the record had is the
    value the record had. *)
Theorem present_columns_kept (row : row_dict) (k : str) :
  (∀ v, fields row !! k = Some v → fields (fill_defaults row) !! k = Some v)
  ∧ (fields row !! k = None →
     fields (fill_defaults row) !! k
     = if decide (k ∈ need) then Some (Some []) else None)
  ∧ rest (fill_defaults row) = rest row
  ∧ (∀ (fieldnames : list str) cells i v,
       fields row !! k = Some v → fieldnames !! i = Some k →
       dict_to_list fieldnames (fill_defaults row) = inr cells →
       cells !! i = Some v).
Proof.
  split; [|split; [|split]].
  - intros v Hv. by rewrite fill_defaults_lookup, Hv.
  - intros Hn. by rewrite fill_defaults_lookup, Hn.
  - apply fill_defaults_rest.
  - intros fieldnames cells i v Hv Hi Hc.
    apply dict_to_list_inr in Hc as ->.
    rewrite list_lookup_fmap, Hi. cbn [fmap option_fmap option_map]. f_equal.
    unfold get. by rewrite fill_defaults_lookup, Hv.
Qed.

Lemma present_columns_kept_witness :
  fields (fill_defaults (make_row [lit "sku"; lit "notes"] [lit "A1"; lit "n"]))
    !! lit "notes" = Some (Some (lit "n")).
Proof.
  refine (proj1 (present_columns_kept _ (lit "notes")) (Some (lit "n")) _).
  vm_compute. reflexivity.
Defined.

(** * Further properties of the two scripts *)

(** ** The Row Validator, row by row *)

Lemma other_msgs_distinct :
  lit "sku empty" ≠ cross_msg ∧ lit "name empty" ≠ cross_msg
  ∧ lit "sku empty" ≠ lit "name empty".
Proof. repeat split; intros H; vm_compute in H; discriminate H. Qed.

(** The message ["sku empty"] is among the errors of a row exactly when
    the value under [sku] is blank after [str] and [strip], and likewise
    for ["name empty"]; no other check produces either message. *)
Theorem empty_field_error_iff (row : row_dict) :
  (lit "sku empty" ∈ row_errs row
   ↔ strip (str_of (get row (lit "sku") (Some []))) = [])
  ∧ (lit "name empty" ∈ row_errs row
     ↔ strip (str_of (get row (lit "name") (Some []))) = []).
Proof.
  destruct other_msgs_distinct as (Hsc & Hnc & Hsn).
  split; rewrite elem_of_row_errs; (split; [|tauto]).
  - intros [(b & Hb & _ & Heq)|[(_ & _ & ?)|[[? _]|[_ ?]]]]; try done.
    destruct (flag_msg_not_other row b Hb) as (_ & Hs & _). by destruct Hs.
  - intros [(b & Hb & _ & Heq)|[(_ & _ & ?)|[[_ ?]|[? _]]]]; try done.
    destruct (flag_msg_not_other row b Hb) as (_ & _ & Hn). by destruct Hn.
Qed.

(** The cross-field message is among the errors of a row exactly when
    [oil_based] is ["true"] and [condom_compatible] is not ["false"],
    both trimmed and lowercased: no other check produces it, and a row
    with [oil_based] other than ["true"] never gets it. *)
Theorem cross_field_error_iff (row : row_dict) :
  cross_msg ∈ row_errs row
  ↔ norm row (lit "oil_based") = lit "true"
    ∧ norm row (lit "condom_compatible") ≠ lit "false".
Proof.
  destruct other_msgs_distinct as (Hsc & Hnc & _).
  rewrite elem_of_row_errs. split; [|tauto].
  intros [(b & Hb & _ & Heq)|[(Ho & Hc & _)|[[_ ?]|[_ ?]]]]; try done.
  destruct (flag_msg_not_other row b Hb) as (Hx & _). by destruct Hx.
Qed.

(** A row is left out of the report exactly when each of the three flags
    is ["true"] or ["false"] after trimming and lowercasing, [oil_based]
    and [condom_compatible] are not both ["true"], and neither [sku] nor
    [name] is blank. *)
Theorem clean_row_iff (row : row_dict) :
  row_errs row = []
  ↔ (∀ b, b ∈ flags → norm row b = lit "true" ∨ norm row b = lit "false")
    ∧ ¬ (norm row (lit "oil_based") = lit "true"
         ∧ norm row (lit "condom_compatible") = lit "true")
    ∧ strip (str_of (get row (lit "sku") (Some []))) ≠ []
    ∧ strip (str_of (get row (lit "name") (Some []))) ≠ [].
Proof.
  split.
  - intros Hnil.
    assert (Hno : ∀ m, m ∉ row_errs row) by (intros m; rewrite Hnil; apply not_elem_of_nil).
    repeat split.
    + intros b Hb. destruct (is_flag (norm row b)) eqn:E.
      * unfold is_flag in E. apply orb_true_iff in E as [E|E];
          apply bool_decide_eq_true in E; tauto.
      * destruct (Hno (flag_msg row b)). apply elem_of_row_errs. left. by exists b.
    + intros [Ho Hc]. destruct (Hno cross_msg). apply elem_of_row_errs.
      right; left. split; [done|]. split; [|done].
      rewrite Hc. intros H; vm_compute in H; discriminate H.
    + intros Hs. destruct (Hno (lit "sku empty")). apply elem_of_row_errs. tauto.
    + intros Hn. destruct (Hno (lit "name empty")). apply elem_of_row_errs. tauto.
  - intros (Hflags & Hcross & Hsku & Hname).
    destruct (row_errs row) as [|m errs] eqn:E; [done|]. exfalso.
    assert (Hm : m ∈ row_errs row) by (rewrite E; left).
    apply elem_of_row_errs in Hm as [(b & Hb & Hf & _)|[(Ho & Hc & _)|[[? _]|[? _]]]];
      try done.
    + apply is_flag_false in Hf. by apply Hf, Hflags.
    + destruct (Hflags (lit "condom_compatible")) as [?|?]; [|tauto|done].
      do 2 right; left.
Qed.

(** The errors of a row depend on the five columns that the checks read
    and on nothing else in the record. *)
Theorem row_errs_frame (row row' : row_dict) :
  (∀ k, k ∈ flags ++ [lit "sku"; lit "name"] → fields row !! k = fields row' !! k) →
  row_errs row = row_errs row'.
Proof.
  intros Hsame.
  assert (Hget : ∀ k d, k ∈ flags ++ [lit "sku"; lit "name"] →
                        get row k d = get row' k d).
  { intros k d Hk. unfold get. by rewrite (Hsame k Hk). }
  assert (Hin : ∀ k, k ∈ [lit "fragrance_free"; lit "oil_based";
                          lit "condom_compatible"; lit "sku"; lit "name"] →
                     k ∈ flags ++ [lit "sku"; lit "name"]) by (intros k Hk; exact Hk).
  rewrite !row_errs_eq. unfold norm, flag_msg.
  rewrite !(Hget (lit "fragrance_free")), !(Hget (lit "oil_based")),
    !(Hget (lit "condom_compatible")), !(Hget (lit "sku")), !(Hget (lit "name"));
    try (apply Hin; rewrite !elem_of_cons; tauto).
  reflexivity.
Qed.

Lemma row_errs_frame_witness :
  row_errs (make_row REQ good_cells)
  = row_errs (make_row (REQ ++ [lit "extra"])
                (lit "SKU1" :: lit "Foo" :: lit "other" :: drop 3 good_cells
                 ++ [lit "x"])).
Proof.
  apply row_errs_frame. unfold flags. intros k Hk.
  rewrite !elem_of_app, !elem_of_cons, !elem_of_nil in Hk.
  destruct Hk as [[->|[->|[->|[]]]]|[->|[->|[]]]]; vm_compute; reflexivity.
Defined.

(** ** The Row Validator, file by file *)

Lemma bad_rows_count (rs : list row_dict) i :
  length (filter (λ ir : nat * row_dict, row_errs ir.2 ≠ []) (enumerate rs i))
  = length (filter (λ r, row_errs r ≠ []) rs).
Proof.
  revert i; induction rs as [|r rs IH]; intros i; [done|].
  rewrite enumerate_cons. destruct (decide (row_errs r ≠ [])) as [Hr|Hr].
  - rewrite !filter_cons_True by done. cbn [length]. by rewrite IH.
  - rewrite !filter_cons_False by done. apply IH.
Qed.

Lemma filter_nil_Forall {A} (P : A → Prop) `{∀ x, Decision (P x)} (l : list A) :
  filter P l = [] ↔ Forall (λ x, ¬ P x) l.
Proof.
  induction l as [|x l IH]; [by split; [constructor|]|].
  destruct (decide (P x)) as [Hx|Hx].
  - rewrite filter_cons_True by done. split; [done|].
    intros Hall. apply Forall_cons in Hall as [? _]. done.
  - rewrite filter_cons_False by done. rewrite IH, Forall_cons. tauto.
Qed.

(** For a file that passes the schema check, the validator prints one
    line more than there are rows with errors, and its whole output is
    the single line ["OK"] exactly when no row has an error. *)
Theorem ok_iff_no_errors argv (fs : files) fns rows :
  fs (PATH argv) = Some (fns :: rows) →
  (∀ c, c ∈ REQ → c ∈ fns) →
  length (stdout (validate argv fs))
  = S (length (filter (λ r, row_errs r ≠ []) (records (fns :: rows))))
  ∧ (stdout (validate argv fs) = [lit "OK"]
     ↔ Forall (λ r, row_errs r = []) (records (fns :: rows))).
Proof.
  intros Hf Hreq. rewrite (validate_pass argv fs fns rows Hf Hreq). cbn [stdout].
  assert (Hlen : ∀ n (l : list str), length (l ++ [summary n]) = S (length l)).
  { intros n l. rewrite length_app. cbn. lia. }
  split.
  - by rewrite Hlen, length_fmap, bad_rows_count.
  - split.
    + intros Hok. apply (f_equal length) in Hok.
      rewrite Hlen, length_fmap, bad_rows_count in Hok. cbn in Hok.
      injection Hok as Hok. apply nil_length_inv in Hok.
      apply filter_nil_Forall in Hok.
      eapply Forall_impl; [exact Hok|]. intros r Hr. cbv beta in Hr.
      by destruct (decide (row_errs r = [])).
    + intros Hall.
      assert (Hnil : filter (λ r, row_errs r ≠ []) (records (fns :: rows)) = []).
      { apply filter_nil_Forall. eapply Forall_impl; [exact Hall|].
        intros r Hr Hn. by apply Hn. }
      pose proof (bad_rows_count (records (fns :: rows)) 2) as Hc.
      rewrite Hnil in Hc. apply nil_length_inv in Hc. by rewrite Hc.
Qed.

Lemma ok_iff_no_errors_witness :
  length (stdout (validate validator_argv (only [REQ; good_cells; empty_sku_cells])))
  = S (length (filter (λ r, row_errs r ≠ [])
                      (records [REQ; good_cells; empty_sku_cells])))
  ∧ (stdout (validate validator_argv (only [REQ; good_cells; empty_sku_cells]))
     = [lit "OK"]
     ↔ Forall (λ r, row_errs r = []) (records [REQ; good_cells; empty_sku_cells])).
Proof.
  apply (ok_iff_no_errors validator_argv (only [REQ; good_cells; empty_sku_cells])
           REQ [good_cells; empty_sku_cells] eq_refl).
  intros c Hc. exact Hc.
Defined.

Lemma data_rows_idem (fns : list str) (rows : list (list str)) :
  data_rows (fns :: data_rows (fns :: rows)) = data_rows (fns :: rows).
Proof.
  unfold data_rows. cbn [tail]. induction rows as [|r rows IH]; [done|].
  destruct r as [|c r].
  - by rewrite filter_cons_False by done.
  - rewrite (filter_cons_True _ (c :: r)) by done.
    rewrite (filter_cons_True _ (c :: r)) by done. by rewrite IH.
Qed.

(** Blank lines among the data count for nothing in the validator: the
    output, row numbers included, is that of the file without them. *)
Theorem validate_ignores_blank_lines argv (fs fs' : files) fns rows :
  fs (PATH argv) = Some (fns :: rows) →
  fs' (PATH argv) = Some (fns :: filter (λ row, blank row = false) rows) →
  validate argv fs = validate argv fs'.
Proof.
  intros Hf Hf'. unfold validate. rewrite Hf, Hf'. cbn [fieldnames head].
  unfold records.
  change (filter (λ row, blank row = false) rows) with (data_rows (fns :: rows)).
  by rewrite data_rows_idem.
Qed.

Lemma validate_ignores_blank_lines_witness :
  validate validator_argv (only [REQ; []; good_cells; []; empty_sku_cells])
  = validate validator_argv (only [REQ; good_cells; empty_sku_cells]).
Proof.
  exact (validate_ignores_blank_lines validator_argv (only _) (only _) REQ
           [[]; good_cells; []; empty_sku_cells] eq_refl eq_refl).
Defined.

Example row_number_counts_records :
  stdout (validate validator_argv (only [REQ; []; good_cells; []; empty_sku_cells]))
  = [lit "Row 3 (): sku empty"; lit "1 row(s) need fixes"].
Proof. vm_compute. reflexivity. Qed.

(** The header at its edges: a file without any line makes the
    membership test on [r.fieldnames] raise, so the process ends with a
    traceback and prints nothing; a file whose first line is blank has
    the empty header, and all 15 columns are reported missing. *)
Theorem header_edge_cases argv (fs : files) :
  (fs (PATH argv) = Some [] →
   validate argv fs = Process [] [Traceback TypeError] 1)
  ∧ (∀ rows, fs (PATH argv) = Some ([] :: rows) →
     validate argv fs
     = Process [lit "Missing columns: " ++ join (lit ", ") REQ] [] 1).
Proof.
  split.
  - intros Hf. unfold validate. by rewrite Hf.
  - intros rows Hf. by rewrite (validate_missing_cols argv fs [] rows Hf).
Qed.

Lemma header_edge_cases_witness :
  validate validator_argv (only []) = Process [] [Traceback TypeError] 1
  ∧ validate validator_argv (only [[]; good_cells])
    = Process [lit "Missing columns: " ++ join (lit ", ") REQ] [] 1.
Proof.
  split.
  - exact (proj1 (header_edge_cases validator_argv (only [])) eq_refl).
  - exact (proj2 (header_edge_cases validator_argv (only [[]; good_cells]))
             [good_cells] eq_refl).
Defined.

(** ** The Column Enricher: the header *)

(** The header that is written has every needed column, at most five
    columns more than the header that was read, and no repeated column
    name unless the header that was read had one. *)
Theorem add_needed_complete_nodup (fns : list str) :
  (∀ k, k ∈ need → k ∈ add_needed fns)
  ∧ length (add_needed fns) ≤ length fns + 5
  ∧ (NoDup fns → NoDup (add_needed fns)).
Proof.
  split; [|split].
  - intros k Hk. apply elem_of_add_needed. by right.
  - rewrite add_needed_eq, length_app.
    pose proof (length_filter (λ k, k ∉ fns) need) as Hle.
    change (length need) with 5 in Hle. lia.
  - intros Hnd. rewrite add_needed_eq. apply NoDup_app. split; [done|]. split.
    + intros k Hk Hin. by apply list_elem_of_filter in Hin as [Hn _].
    + apply NoDup_filter. compute_done.
Qed.

Lemma add_needed_complete_nodup_witness :
  NoDup (add_needed [lit "sku"; lit "notes"]).
Proof.
  apply (add_needed_complete_nodup [lit "sku"; lit "notes"]). compute_done.
Defined.

(** Extending an extended header adds nothing: the second run of the
    enricher never adds a column. *)
Theorem add_needed_idempotent (fns : list str) :
  add_needed (add_needed fns) = add_needed fns.
Proof.
  apply add_needed_id. intros k Hk. apply elem_of_add_needed. by right.
Qed.

(** The validator after the enricher: on the extended header the schema
    check misses exactly the required columns that the input lacked and
    that are not among the five the enricher adds. *)
Theorem missing_cols_after_enrich (fns : list str) :
  missing_cols (add_needed fns) = filter (λ c, c ∉ need) (missing_cols fns).
Proof.
  unfold missing_cols. rewrite list_filter_filter.
  apply list_filter_iff. intros c. rewrite elem_of_add_needed. tauto.
Qed.

(** ** The Column Enricher: the records *)

Lemma row_dict_eq (a b : row_dict) :
  fields a = fields b → rest a = rest b → a = b.
Proof. destruct a, b. cbn. by intros -> ->. Qed.

(** Filling the defaults twice is filling them once. *)
Theorem fill_defaults_idempotent (row : row_dict) :
  fill_defaults (fill_defaults row) = fill_defaults row.
Proof.
  apply row_dict_eq.
  - apply map_eq. intros k. rewrite !fill_defaults_lookup.
    destruct (fields row !! k); [done|]. by destruct (decide (k ∈ need)).
  - by rewrite !fill_defaults_rest.
Qed.

(** ** The Column Enricher: the run *)

Lemma enrich_unfold argv (fs : files) f :
  fs (in_path argv) = Some f →
  enrich argv fs
  = match writerows (add_needed (default [] (fieldnames f)))
            (fill_defaults
               <$> (make_row (default [] (fieldnames f)) <$> data_rows f))
            [add_needed (default [] (fieldnames f))] with
    | (written, Some e) => (Process [] [Traceback e] 1, Some written)
    | (written, None) =>
      (Process [lit "Wrote " ++ out_path argv ++ lit " with columns: "
                ++ join (lit ", ") (add_needed (default [] (fieldnames f)))] [] 0,
       Some written)
    end.
Proof.
  intros Hf. unfold enrich. rewrite Hf. by destruct f.
Qed.

(** Blank lines among the data count for nothing in the enricher
    either: they are not written, and the run is that of the file
    without them. *)
Theorem enrich_ignores_blank_lines argv (fs fs' : files) fns rows :
  fs (in_path argv) = Some (fns :: rows) →
  fs' (in_path argv) = Some (fns :: filter (λ row, blank row = false) rows) →
  enrich argv fs = enrich argv fs'.
Proof.
  intros Hf Hf'. rewrite (enrich_unfold argv fs _ Hf), (enrich_unfold argv fs' _ Hf').
  change (filter (λ row, blank row = false) rows) with (data_rows (fns :: rows)).
  by rewrite data_rows_idem.
Qed.

Lemma enrich_ignores_blank_lines_witness :
  enrich enricher_argv (only [[lit "sku"]; []; [lit "A1"]; []])
  = enrich enricher_argv (only [[lit "sku"]; [lit "A1"]]).
Proof.
  exact (enrich_ignores_blank_lines enricher_argv (only _) (only _) [lit "sku"]
           [[]; [lit "A1"]; []] eq_refl eq_refl).
Defined.

Lemma writerows_lengths fns (rows : list row_dict) written :
  Forall (λ r : list str, length r = length fns) written →
  Forall (λ r : list str, length r = length fns) (writerows fns rows written).1.
Proof.
  revert written; induction rows as [|row rows IH]; intros written Hw; cbn; [done|].
  destruct (dict_to_list fns row) as [e|cells] eqn:E; [done|].
  apply IH. apply Forall_app. split; [done|]. apply Forall_singleton.
  apply dict_to_list_inr in E as ->. by rewrite !length_fmap.
Qed.

(** Whatever the lines of the input look like, and also when the run
    stops on a [ValueError], the file that is written is rectangular:
    every row has as many cells as the header. *)
Theorem output_rectangular argv (fs : files) hdr more :
  (enrich argv fs).2 = Some (hdr :: more) →
  Forall (λ r, length r = length hdr) more.
Proof.
  destruct (fs (in_path argv)) as [f|] eqn:Hf.
  - rewrite (enrich_unfold argv fs f Hf).
    set (fns := add_needed (default [] (fieldnames f))).
    set (rows := fill_defaults <$> _).
    pose proof (writerows_lengths fns rows [fns]) as Hlen.
    destruct (writerows_prefix fns rows [fns]) as [more' Hm].
    rewrite Hm in Hlen.
    assert (Hw : (match writerows fns rows [fns] with
                  | (written, Some e) => (Process [] [Traceback e] 1, Some written)
                  | (written, None) =>
                    (Process [lit "Wrote " ++ out_path argv ++ lit " with columns: "
                              ++ join (lit ", ") fns] [] 0, Some written)
                  end).2 = Some (writerows fns rows [fns]).1)
      by (by destruct (writerows fns rows [fns]) as [w [e|]]).
    rewrite Hw, Hm. cbn. intros [= <- <-].
    specialize (Hlen ltac:(by apply Forall_singleton)).
    by apply Forall_cons in Hlen as [_ Hlen].
  - unfold enrich. by rewrite Hf.
Qed.

Lemma output_rectangular_witness :
  Forall (λ r, length r = length [lit "sku"; lit "notes"; lit "aliases";
                                  lit "skin_types"; lit "oil_based";
                                  lit "condom_compatible"])
         [[lit "A1"; lit "n"; []; []; []; []]; [lit "A2"; []; []; []; []; []]].
Proof.
  apply (output_rectangular enricher_argv
           (only [[lit "sku"; lit "notes"]; [lit "A1"; lit "n"]; []; [lit "A2"]])).
  vm_compute. reflexivity.
Defined.

Lemma writerows_stop fns (pre post : list row_dict) bad written :
  Forall (λ row, rest row = None ∧ ∀ k, is_Some (fields row !! k) → k ∈ fns) pre →
  is_Some (rest bad) →
  writerows fns (pre ++ bad :: post) written
  = (written ++ ((λ row, (λ key, cell (get row key (Some []))) <$> fns) <$> pre),
     Some ValueError).
Proof.
  intros Hpre Hbad. revert written.
  induction Hpre as [|row pre [Hr Hk] _ IH]; intros written; cbn.
  - rewrite dict_to_list_surplus by done. by rewrite app_nil_r.
  - rewrite dict_to_list_ok by done. rewrite IH.
    rewrite <- app_assoc. cbn. by rewrite <- list_fmap_compose.
Qed.

Lemma writerows_stops_at (H : list str) (pre post : list (list str)) long written :
  Forall (λ cells, length cells ≤ length H) pre →
  length H < length long →
  writerows (add_needed H)
    (fill_defaults <$> (make_row H <$> pre ++ long :: post)) written
  = (written
       ++ ((λ cells,
              (λ key, cell (get (fill_defaults (make_row H cells)) key (Some [])))
                <$> add_needed H) <$> pre),
     Some ValueError).
Proof.
  intros Hpre Hlong. rewrite !fmap_app, !fmap_cons, writerows_stop.
  - by rewrite <- !list_fmap_compose.
  - rewrite <- list_fmap_compose. apply Forall_fmap.
    eapply Forall_impl; [exact Hpre|]. intros cells Hc. cbn.
    by apply enriched_row_fits.
  - rewrite fill_defaults_rest, make_row_long by done. by eexists.
Qed.

(** The first line with more cells than the header stops the run: the
    process ends with the traceback of a [ValueError] and status 1, it
    prints nothing, and the output file is left with the header and the
    rows of the lines before that one. *)
Theorem surplus_line_stops_run argv (fs : files) f pre long post :
  fs (in_path argv) = Some f →
  let H := default [] (fieldnames f) in
  data_rows f = pre ++ long :: post →
  Forall (λ cells, length cells ≤ length H) pre →
  length H < length long →
  enrich argv fs
  = (Process [] [Traceback ValueError] 1,
     Some (add_needed H
             :: ((λ cells,
                    (λ key, cell (get (fill_defaults (make_row H cells))
                                      key (Some []))) <$> add_needed H)
                   <$> pre))).
Proof.
  intros Hf H Hsplit Hpre Hlong. rewrite (enrich_unfold argv fs f Hf). fold H.
  rewrite Hsplit. by rewrite (writerows_stops_at H pre post long [add_needed H]).
Qed.

Lemma surplus_line_stops_run_witness :
  enrich enricher_argv
    (only [[lit "sku"]; [lit "A1"]; [lit "A2"; lit "extra"]; [lit "A3"]])
  = (Process [] [Traceback ValueError] 1,
     Some (add_needed [lit "sku"]
             :: ((λ cells,
                    (λ key, cell (get (fill_defaults (make_row [lit "sku"] cells))
                                      key (Some []))) <$> add_needed [lit "sku"])
                   <$> [[lit "A1"]]))).
Proof.
  apply (surplus_line_stops_run enricher_argv (only _)
           [[lit "sku"]; [lit "A1"]; [lit "A2"; lit "extra"]; [lit "A3"]]
           [[lit "A1"]] [lit "A2"; lit "extra"] [[lit "A3"]] eq_refl eq_refl).
  - repeat constructor.
  - cbn. lia.
Defined.

Lemma first_failure {A} (P : A → Prop) `{∀ x, Decision (P x)} (l : list A) :
  ¬ Forall P l → ∃ pre x post, l = pre ++ x :: post ∧ Forall P pre ∧ ¬ P x.
Proof.
  induction l as [|x l IH]; intros Hn.
  - destruct Hn. constructor.
  - destruct (decide (P x)) as [Hx|Hx].
    + destruct IH as (pre & y & post & -> & Hpre & Hy).
      { intros Hl. apply Hn. by constructor. }
      exists (x :: pre), y, post. repeat split; [by constructor|done].
    + exists [], x, l. repeat split; [constructor|done].
Qed.

(** For an input file that exists, the enricher ends with status 0
    exactly when no line that is not blank has more cells than the
    header; otherwise it ends with status 1. *)
Theorem enrich_status argv (fs : files) f :
  fs (in_path argv) = Some f →
  (status (enrich argv fs).1 = 0%Z
   ↔ Forall (λ cells, length cells ≤ length (default [] (fieldnames f)))
            (data_rows f))
  ∧ (status (enrich argv fs).1 = 0%Z ∨ status (enrich argv fs).1 = 1%Z).
Proof.
  intros Hf. set (H := default [] (fieldnames f)).
  destruct (decide (Forall (λ cells, length cells ≤ length H) (data_rows f)))
    as [Hall|Hnot].
  - assert (Hok : status (enrich argv fs).1 = 0%Z).
    { rewrite (enrich_unfold argv fs f Hf). fold H. rewrite writerows_all; [done|].
      rewrite <- list_fmap_compose. apply Forall_fmap.
      eapply Forall_impl; [exact Hall|]. intros cells Hc. cbn.
      by apply enriched_row_fits. }
    split; [by split|by left].
  - destruct (first_failure _ _ Hnot) as (pre & long & post & Hsplit & Hpre & Hlong).
    assert (Hbad : status (enrich argv fs).1 = 1%Z).
    { rewrite (enrich_unfold argv fs f Hf). fold H. rewrite Hsplit.
      rewrite (writerows_stops_at H pre post long [add_needed H]); [done..|lia]. }
    split; [|by right]. rewrite Hbad. split; [done|]. intros Hall. by destruct Hnot.
Qed.

Lemma enrich_status_witness :
  status (enrich enricher_argv (only [[lit "sku"]; [lit "A1"]; []])).1 = 0%Z.
Proof.
  apply (proj1 (enrich_status enricher_argv (only _)
                  [[lit "sku"]; [lit "A1"]; []] eq_refl)).
  repeat constructor.
Defined.

Lemma fmap_const_replicate {A B} (f : A → B) (y : B) (l : list A) :
  (∀ x, x ∈ l → f x = y) → f <$> l = replicate (length l) y.
Proof.
  induction l as [|x l IH]; intros Hf; [done|]. cbn.
  rewrite (Hf x) by left. rewrite IH; [done|]. intros z Hz. apply Hf. by right.
Qed.

Lemma dict_zip_take (fns cells : list str) :
  dict_zip fns cells = dict_zip (take (length cells) fns) cells.
Proof. unfold dict_zip. by rewrite zip_with_take_l. Qed.

(** Under a header without repeated names, a line that is not longer
    than the header is written with its cells in place, followed by
    empty cells up to the width of the extended header. *)
Theorem cells_kept_in_place (H cells : list str) :
  NoDup H → length cells ≤ length H →
  (λ key, cell (get (fill_defaults (make_row H cells)) key (Some [])))
    <$> add_needed H
  = cells ++ replicate (length (add_needed H) - length cells) [].
Proof.
  intros Hnd Hlen.
  set (out := λ key, cell (get (fill_defaults (make_row H cells)) key (Some []))).
  assert (Hparts : NoDup (take (length cells) H)
                   ∧ ∀ k, k ∈ take (length cells) H → k ∉ drop (length cells) H).
  { rewrite <- (take_drop (length cells) H) in Hnd.
    apply NoDup_app in Hnd as (? & ? & _). done. }
  destruct Hparts as [Hndt Hdisj].
  destruct (cells_as_function (take (length cells) H) cells Hndt) as [g Hg].
  { by rewrite length_take_le. }
  (* the cells that the line has *)
  assert (Htake : out <$> take (length cells) H = cells).
  { rewrite Hg at 2. apply list_fmap_ext. intros i k Hk.
    apply list_elem_of_lookup_2 in Hk. unfold out, get.
    rewrite fill_defaults_lookup.
    assert (Hz : dict_zip H cells !! k = Some (Some (g k))).
    { rewrite dict_zip_take. rewrite Hg at 2.
      pose proof (make_row_fun g (take (length cells) H) k) as Hfun.
      rewrite make_row_exact in Hfun by apply length_fmap. cbn in Hfun.
      rewrite Hfun. by rewrite decide_True. }
    destruct (decide (length cells = length H)) as [He|Hne].
    - rewrite make_row_exact by done. cbn. by rewrite Hz.
    - rewrite make_row_short by lia. cbn. rewrite fill_restval_lookup.
      rewrite decide_False by (by apply Hdisj). by rewrite Hz. }
  (* the cells that the line lacks *)
  assert (Hdrop : out <$> drop (length cells) H
                  = replicate (length H - length cells) []).
  { rewrite <- (length_drop H (length cells)). apply fmap_const_replicate.
    intros k Hk. unfold out, get.
    by rewrite fill_defaults_lookup, (make_row_missing H cells k Hk). }
  (* the columns that are added *)
  assert (Hnew : out <$> filter (λ k, k ∉ H) need
                 = replicate (length (filter (λ k, k ∉ H) need)) []).
  { apply fmap_const_replicate. intros k Hk.
    apply list_elem_of_filter in Hk as [Hn Hk]. unfold out, get.
    rewrite fill_defaults_lookup.
    destruct (fields (make_row H cells) !! k) eqn:E.
    - destruct Hn. apply (make_row_keys H cells). by eexists.
    - by rewrite decide_True. }
  rewrite add_needed_eq, fmap_app, Hnew.
  rewrite <- (take_drop (length cells) H) at 1. rewrite fmap_app, Htake, Hdrop.
  rewrite <- app_assoc, <- replicate_add, length_app. f_equal. f_equal. lia.
Qed.

Lemma cells_kept_in_place_witness :
  (λ key, cell (get (fill_defaults (make_row [lit "sku"; lit "notes"; lit "name"]
                                             [lit "A1"; lit "n"]))
                    key (Some [])))
    <$> add_needed [lit "sku"; lit "notes"; lit "name"]
  = [lit "A1"; lit "n"]
      ++ replicate (length (add_needed [lit "sku"; lit "notes"; lit "name"])
                    - length [lit "A1"; lit "n"]) [].
Proof.
  apply (cells_kept_in_place [lit "sku"; lit "notes"; lit "name"] [lit "A1"; lit "n"]).
  - compute_done.
  - cbn. lia.
Defined.

Lemma enriched_row_flag (H cells : list str) (b : str) :
  b ∈ [lit "oil_based"; lit "condom_compatible"] → b ∉ H →
  b ++ lit "='' not true/false"
    ∈ row_errs (make_row (add_needed H)
                  ((λ key, cell (get (fill_defaults (make_row H cells))
                                     key (Some []))) <$> add_needed H)).
Proof.
  intros Hb Hn.
  assert (Hneed : b ∈ need).
  { unfold need. rewrite !elem_of_cons in Hb. rewrite !elem_of_cons. tauto. }
  assert (Hflag : b ∈ flags).
  { unfold flags. rewrite !elem_of_cons in Hb. rewrite !elem_of_cons. tauto. }
  set (row := make_row _ _).
  assert (Hval : fields row !! b = Some (Some [])).
  { unfold row. rewrite make_row_fun.
    rewrite decide_True by (apply elem_of_add_needed; by right).
    do 2 f_equal. unfold get. rewrite fill_defaults_lookup.
    destruct (fields (make_row H cells) !! b) eqn:E.
    - destruct Hn. apply (make_row_keys H cells). by eexists.
    - by rewrite decide_True. }
  apply elem_of_row_errs. left. exists b. split; [done|].
  unfold norm, flag_msg, get. rewrite Hval. split; reflexivity.
Qed.

Lemma filter_enumerate_all (rs : list row_dict) i :
  Forall (λ r, row_errs r ≠ []) rs →
  filter (λ ir : nat * row_dict, row_errs ir.2 ≠ []) (enumerate rs i)
  = enumerate rs i.
Proof.
  intros Hall. revert i. induction Hall as [|r rs Hr _ IH]; intros i; [done|].
  rewrite enumerate_cons, filter_cons_True by done. by rewrite IH.
Qed.

Lemma length_enumerate {A} (l : list A) i : length (enumerate l i) = length l.
Proof.
  unfold enumerate. rewrite length_zip, length_seq. lia.
Qed.

(** The two tools together, run one after the other.  Take an input whose
    header lacks [oil_based] or [condom_compatible] but has every
    required column that the enricher does not add, and a run of the
    enricher on it that ends with status 0.  The validator, run on the
    file that was written, passes the schema check, reports every data
    row of the input, each with the message that the added column is
    [''] and not true/false, and counts them all in the summary. *)
Theorem enriched_flag_rejected argv argv' (fs fs' : files) f p w (b : str) :
  fs (in_path argv) = Some f →
  enrich argv fs = (p, Some w) → status p = 0%Z →
  fs' (PATH argv') = Some w →
  (∀ c, c ∈ REQ → c ∉ need → c ∈ default [] (fieldnames f)) →
  b ∈ [lit "oil_based"; lit "condom_compatible"] →
  b ∉ default [] (fieldnames f) →
  length (records w) = length (data_rows f)
  ∧ Forall (λ row, b ++ lit "='' not true/false" ∈ row_errs row) (records w)
  ∧ validate argv' fs'
    = Process (((λ ir, report ir.1 ir.2 (row_errs ir.2))
                  <$> enumerate (records w) 2)
               ++ [summary (length (data_rows f))]) [] 0.
Proof.
  intros Hf Hrun Hp Hf' Hreq Hb Hn.
  set (H := default [] (fieldnames f)) in *.
  (* what the enricher wrote *)
  assert (Hw : w = add_needed H
                   :: ((λ cells,
                          (λ key, cell (get (fill_defaults (make_row H cells))
                                            key (Some []))) <$> add_needed H)
                         <$> data_rows f)).
  { rewrite (enrich_unfold argv fs f Hf) in Hrun. fold H in Hrun.
    destruct (writerows _ _ _) as [w' [e|]] eqn:E.
    - injection Hrun as <- _. done.
    - injection Hrun as _ <-. apply writerows_ok in E.
      rewrite E. cbn. by rewrite <- !list_fmap_compose. }
  assert (Hin : b ∈ add_needed H).
  { apply elem_of_add_needed. right.
    unfold need. rewrite !elem_of_cons in Hb. rewrite !elem_of_cons. tauto. }
  (* the records that the validator reads back *)
  assert (Hrecs : records w
                  = (λ cells,
                       make_row (add_needed H)
                         ((λ key, cell (get (fill_defaults (make_row H cells))
                                            key (Some []))) <$> add_needed H))
                      <$> data_rows f).
  { rewrite Hw. unfold records. rewrite data_rows_nonblank.
    - by rewrite <- list_fmap_compose.
    - apply Forall_fmap, Forall_forall. intros cells _ Hnil.
      apply fmap_nil_inv in Hnil. rewrite Hnil in Hin.
      by apply elem_of_nil in Hin. }
  assert (Hall : Forall (λ row, b ++ lit "='' not true/false" ∈ row_errs row)
                        (records w)).
  { rewrite Hrecs. apply Forall_fmap, Forall_forall. intros cells _. cbn.
    by apply enriched_row_flag. }
  assert (Hlen : length (records w) = length (data_rows f))
    by (by rewrite Hrecs, length_fmap).
  split; [exact Hlen|]. split; [exact Hall|].
  rewrite Hw in Hf'.
  rewrite (validate_pass argv' fs' _ _ Hf').
  - rewrite <- Hw. rewrite filter_enumerate_all.
    + by rewrite length_enumerate, Hlen.
    + eapply Forall_impl; [exact Hall|]. intros row Hrow Hnil.
      cbv beta in Hrow. rewrite Hnil in Hrow. by apply elem_of_nil in Hrow.
  - intros c Hc. apply elem_of_add_needed.
    destruct (decide (c ∈ need)); [by right|left; by apply Hreq].
Qed.

Lemma enriched_flag_rejected_witness :
  validate validator_argv
    (only [take 8 REQ ++ drop 9 REQ ++ [lit "oil_based"];
           take 8 good_cells ++ drop 9 good_cells ++ [[]]])
  = Process [lit "Row 2 (SKU1): oil_based='' not true/false";
             lit "1 row(s) need fixes"] [] 0.
Proof.
  refine (eq_trans
            (proj2 (proj2
               (enriched_flag_rejected enricher_argv validator_argv
                  (only [take 8 REQ ++ drop 9 REQ;
                         take 8 good_cells ++ drop 9 good_cells])
                  (only [take 8 REQ ++ drop 9 REQ ++ [lit "oil_based"];
                         take 8 good_cells ++ drop 9 good_cells ++ [[]]])
                  [take 8 REQ ++ drop 9 REQ; take 8 good_cells ++ drop 9 good_cells]
                  (Process [lit "Wrote products_enriched.csv with columns: sku, name, aliases, category, skin_types, key_ingredients, claims, fragrance_free, condom_compatible, size_ml, price, usage, contraindications, notes, oil_based"] [] 0)
                  _ (lit "oil_based") eq_refl _ eq_refl eq_refl _ _ _))) _).
  - vm_compute. reflexivity.
  - intros c Hc Hn. unfold REQ in Hc. unfold need in Hn.
    rewrite !elem_of_cons, elem_of_nil in Hc. rewrite !elem_of_cons, elem_of_nil in Hn.
    assert (Hok : ∀ x, x ∈ take 8 REQ ++ drop 9 REQ → x ∈ default [] (fieldnames
               [take 8 REQ ++ drop 9 REQ; take 8 good_cells ++ drop 9 good_cells]))
      by (intros x Hx; exact Hx).
    apply Hok. cbn [take drop REQ app]. rewrite !elem_of_cons.
    destruct Hc as [->|[->|[->|[->|[->|[->|[->|[->|[->|[->|[->|[->|[->|[->|[->|[]]]]]]]]]]]]]]]];
      tauto.
  - left.
  - compute_done.
  - vm_compute. reflexivity.
Defined.

Lemma empty_msgs_only_if_blank (row : row_dict) :
  (lit "sku empty" ∈ row_errs row
   → strip (str_of (get row (lit "sku") (Some []))) = [])
  ∧ (lit "name empty" ∈ row_errs row
     → strip (str_of (get row (lit "name") (Some []))) = []).
Proof.
  destruct other_msgs_distinct as (Hsc & Hnc & Hsn).
  split; rewrite elem_of_row_errs.
  - intros [(b & Hb & _ & Heq)|[(_ & _ & ?)|[[? _]|[_ ?]]]]; try done.
    destruct (flag_msg_not_other row b Hb) as (_ & Hs & _). by destruct Hs.
  - intros [(b & Hb & _ & Heq)|[(_ & _ & ?)|[[_ ?]|[? _]]]]; try done.
    destruct (flag_msg_not_other row b Hb) as (_ & _ & Hn). by destruct Hn.
Qed.

(** A column whose cell the line lacks holds [None] in the record, and
    the checks see the text ["None"]: a flag column is reported with the
    value ['None'], while [sku] and [name] are not reported as empty. *)
Theorem missing_cell_checks (fns cells : list str) (k : str) :
  k ∈ drop (length cells) fns →
  fields (make_row fns cells) !! k = Some None
  ∧ (k ∈ flags →
     k ++ lit "='None' not true/false" ∈ row_errs (make_row fns cells))
  ∧ (k = lit "sku" → lit "sku empty" ∉ row_errs (make_row fns cells))
  ∧ (k = lit "name" → lit "name empty" ∉ row_errs (make_row fns cells)).
Proof.
  intros Hdrop.
  pose proof (make_row_missing fns cells k Hdrop) as Hm.
  assert (Hg : ∀ d, get (make_row fns cells) k d = None)
    by (intros d; unfold get; by rewrite Hm).
  split; [exact Hm|]. split; [|split].
  - intros Hk. apply elem_of_row_errs. left. exists k. split; [done|].
    unfold norm, flag_msg. rewrite !Hg. split; reflexivity.
  - intros -> Hin.
    apply (proj1 (empty_msgs_only_if_blank _)) in Hin.
    rewrite Hg in Hin. vm_compute in Hin. discriminate Hin.
  - intros -> Hin.
    apply (proj2 (empty_msgs_only_if_blank _)) in Hin.
    rewrite Hg in Hin. vm_compute in Hin. discriminate Hin.
Qed.

Lemma missing_cell_checks_witness :
  fields (make_row sku_last [lit "Foo"]) !! lit "sku" = Some None
  ∧ (lit "sku" ∈ flags →
     lit "sku" ++ lit "='None' not true/false"
       ∈ row_errs (make_row sku_last [lit "Foo"]))
  ∧ (lit "sku" = lit "sku" →
     lit "sku empty" ∉ row_errs (make_row sku_last [lit "Foo"]))
  ∧ (lit "sku" = lit "name" →
     lit "name empty" ∉ row_errs (make_row sku_last [lit "Foo"])).
Proof.
  apply (missing_cell_checks sku_last [lit "Foo"] (lit "sku")). compute_done.
Defined.
